(** * NBApredict: odds scraping, prediction grading and persistence

    A shallow embedding of the parts of the repository that scrape the Bovada
    feed ([NBApredict/scrapers/line_scraper.py]) and that grade and persist
    predictions ([NBApredict/predict/bets.py]), of the column helpers of
    [general.py] and of the run scripts ([NBApredict/run/all.py],
    [NBApredict/run/daily.py]), followed by the properties established about
    them.

    Conventions of the embedding.
    - A Python function that may raise returns a [result]; functions that also
      talk to the network, the clock or the database session run in a small
      state-and-exception monad over the state they touch.
    - A Python [int] is a [Z]. A finite Python [float] is the rational it
      denotes, a [Q]: the comparisons [<], [>] and [==] of finite floats agree
      with those of the rationals, and negation is exact.
    - A local variable that may be unbound is an [option]: [None] is
      "not yet assigned", and reading it raises [UnboundLocalError].
    - A Python [str] is a [string]. [str.upper] and [str.lower] are followed
      on ASCII text; statements that rest on the case mapping are made of
      ASCII text ([is_ascii]). *)

From Stdlib Require Import ZArith QArith String Ascii List Bool Lia.
From stdpp Require Import base list strings.
From Equations Require Import Equations.
Import ListNotations.

Local Close Scope Q_scope.
Local Open Scope string_scope.
Local Open Scope list_scope.
Local Open Scope Z_scope.

(** ** Python values, exceptions and results *)

Module Py.

(** The exceptions the modelled code can raise. [Exception] carries the
    message of an explicit [raise Exception(...)]. *)
Inductive exn : Type :=
| Exception (msg : string)
| ValueError
| TypeError
| KeyError (key : string)
| IndexError
| NameError (name : string)
| UnboundLocalError (name : string)
| IntegrityError.

Inductive result (A : Type) : Type :=
| Ok (a : A)
| Raise (e : exn).

Arguments Ok {A} a.
Arguments Raise {A} e.

Definition rbind {A B : Type} (r : result A) (k : A -> result B) : result B :=
  match r with
  | Ok a => k a
  | Raise e => Raise e
  end.

(** Computations that may raise and that read and change a state [S]: the
    trace of a scrape, or the database session. A raised exception leaves the
    state as it was when it was raised. *)
Definition Eff (S A : Type) : Type := S -> result A * S.

Definition ret {S A : Type} (a : A) : Eff S A := fun s => (Ok a, s).

Definition raise {S A : Type} (e : exn) : Eff S A := fun s => (Raise e, s).

Definition bind {S A B : Type} (m : Eff S A) (k : A -> Eff S B) : Eff S B :=
  fun s =>
    match m s with
    | (Ok a, s') => k a s'
    | (Raise e, s') => (Raise e, s')
    end.

Definition lift {S A : Type} (r : result A) : Eff S A := fun s => (r, s).

Notation "x <- m ;; k" := (bind m (fun x => k))
  (at level 100, m at next level, right associativity).

(** [for x in xs: s = step(s, x)], without and with effects. *)
Fixpoint for_each {A S : Type} (step : S -> A -> result S) (xs : list A) (s : S)
  : result S :=
  match xs with
  | [] => Ok s
  | x :: xs' => rbind (step s x) (for_each step xs')
  end.

Fixpoint for_each_M {St A S : Type} (step : S -> A -> Eff St S) (xs : list A)
    (s : S) : Eff St S :=
  match xs with
  | [] => ret s
  | x :: xs' => s' <- step s x ;; for_each_M step xs' s'
  end.

(** [try: body except IntegrityError: handler] *)
Definition try_except_IntegrityError {S A : Type} (body handler : Eff S A)
  : Eff S A :=
  fun s =>
    match body s with
    | (Raise IntegrityError, s') => handler s'
    | other => other
    end.

(** [try: body finally: final]: [final] runs whatever [body] did; what
    [body] returned or raised stands unless [final] itself raises. *)
Definition try_finally {S A : Type} (body : Eff S A) (final : Eff S unit)
  : Eff S A :=
  fun s =>
    let (r, s') := body s in
    match final s' with
    | (Ok _, s'') => (r, s'')
    | (Raise e, s'') => (Raise e, s'')
    end.

(** A call that passes [nargs] positional arguments to a function declared
    with the parameters [params], none of which has a default. *)
Definition call {S A : Type} (params : list string) (nargs : nat)
    (body : Eff S A) : Eff S A :=
  if (nargs =? length params)%nat then body else raise TypeError.

(** A calendar instant as [datetime] holds it. *)
Record datetime : Type := mk_datetime {
  year : Z; month : Z; day : Z; hour : Z; minute : Z; second : Z; microsecond : Z
}.

(** The values a cell of a scraped row can hold. *)
Inductive value : Type :=
| VNone
| VStr (s : string)
| VInt (z : Z)
| VFloat (q : Q)
| VDatetime (d : datetime).

#[global] Instance datetime_eq_dec : EqDecision datetime.
Proof. solve_decision. Defined.

#[global] Instance Q_eq_dec : EqDecision Q.
Proof. solve_decision. Defined.

#[global] Instance value_eq_dec : EqDecision value.
Proof. solve_decision. Defined.

(** [v == ""]: only the empty string equals the empty string. *)
Definition is_empty_str (v : value) : bool :=
  match v with
  | VStr s => String.eqb s ""
  | _ => false
  end.

(** Lexicographic comparison of two instants. *)
Definition datetime_fields (d : datetime) : list Z :=
  [year d; month d; day d; hour d; minute d; second d; microsecond d].

Fixpoint lex_compare (xs ys : list Z) : comparison :=
  match xs, ys with
  | x :: xs', y :: ys' =>
      match Z.compare x y with
      | Eq => lex_compare xs' ys'
      | c => c
      end
  | [], [] => Eq
  | [], _ :: _ => Lt
  | _ :: _, [] => Gt
  end.

(** [a > b] on [datetime]. *)
Definition datetime_gt (a b : datetime) : bool :=
  match lex_compare (datetime_fields a) (datetime_fields b) with
  | Gt => true
  | _ => false
  end.

(** *** Strings *)

Definition is_digit (c : ascii) : bool :=
  let n := nat_of_ascii c in (48 <=? n)%nat && (n <=? 57)%nat.

Definition digit_value (c : ascii) : Z := Z.of_nat (nat_of_ascii c) - 48.

(** [str.upper] on ASCII text: the letters a-z are mapped to A-Z and every
    other byte is kept. A string is its bytes here, and [str.upper] is
    followed on ASCII text only: Python maps characters outside ASCII as
    Unicode says (one character can become two), which this function does
    not. Statements that rest on the case mapping are made of ASCII text. *)
Definition upper_ascii (c : ascii) : ascii :=
  let n := nat_of_ascii c in
  if (97 <=? n)%nat && (n <=? 122)%nat then ascii_of_nat (n - 32) else c.

Fixpoint upper (s : string) : string :=
  match s with
  | EmptyString => EmptyString
  | String c s' => String (upper_ascii c) (upper s')
  end.

(** [s.count(c) > 0] for a one-character needle. *)
Fixpoint contains_char (c : ascii) (s : string) : bool :=
  match s with
  | EmptyString => false
  | String c' s' => Ascii.eqb c c' || contains_char c s'
  end.

(** [s.split(sep)] for a one-character separator: never empty, the pieces
    between consecutive separators, in order. *)
Fixpoint split_char (sep : ascii) (s : string) : list string :=
  match s with
  | EmptyString => [EmptyString]
  | String c s' =>
      if Ascii.eqb c sep then EmptyString :: split_char sep s'
      else match split_char sep s' with
           | piece :: pieces => String c piece :: pieces
           | [] => [String c EmptyString]
           end
  end.

(** [''.join(re.findall('[0-9]', s))]: the digits of [s], in order. *)
Fixpoint digits_of (s : string) : string :=
  match s with
  | EmptyString => EmptyString
  | String c s' => if is_digit c then String c (digits_of s') else digits_of s'
  end.

(** *** [int(s)] and [float(s)] on the strings of the feed *)

Definition is_space (c : ascii) : bool :=
  let n := nat_of_ascii c in
  ((9 <=? n)%nat && (n <=? 13)%nat) || (n =? 32)%nat.

Fixpoint lstrip (s : string) : string :=
  match s with
  | String c s' => if is_space c then lstrip s' else s
  | EmptyString => EmptyString
  end.

Fixpoint rstrip (s : string) : string :=
  match s with
  | EmptyString => EmptyString
  | String c s' =>
      match rstrip s' with
      | EmptyString => if is_space c then EmptyString else String c EmptyString
      | rest => String c rest
      end
  end.

Definition strip (s : string) : string := rstrip (lstrip s).

(** The value of a non-empty run of decimal digits, most significant first;
    [None] when a character is not a digit. *)
Fixpoint digits_value (acc : Z) (s : string) : option Z :=
  match s with
  | EmptyString => Some acc
  | String c s' =>
      if is_digit c then digits_value (10 * acc + digit_value c) s' else None
  end.

Definition unsigned_int (s : string) : option Z :=
  match s with
  | EmptyString => None
  | _ => digits_value 0 s
  end.

(** An optional sign, split off. *)
Definition split_sign (s : string) : Z * string :=
  match s with
  | String "-"%char s' => (-1, s')
  | String "+"%char s' => (1, s')
  | _ => (1, s)
  end.

(** [int(s)] for a string: surrounding white space, an optional sign and a
    non-empty run of ASCII digits; anything else is a [ValueError]. (Digit
    group separators [_] and digits outside ASCII, which [int] accepts, are
    not modelled; the feed does not use them.) *)
Definition py_int (s : string) : result Z :=
  let (sign, body) := split_sign (strip s) in
  match unsigned_int body with
  | Some n => Ok (sign * n)
  | None => Raise ValueError
  end.

(** The part of [s] before the first [c], and the part after it if any. *)
Fixpoint break_at (c : ascii) (s : string) : string * option string :=
  match s with
  | EmptyString => (EmptyString, None)
  | String c' s' =>
      if Ascii.eqb c c' then (EmptyString, Some s')
      else let (before, after) := break_at c s' in (String c' before, after)
  end.

(** [float(s)] on plain decimal notation: white space, an optional sign,
    digits with an optional fractional part (at least one digit overall). The
    result is the rational the text denotes, in lowest terms, not the double
    nearest to it; exponents, [_], [inf] and [nan], which [float] accepts and
    the feed does not use, are a [ValueError] here. *)
Definition py_float (s : string) : result Q :=
  let (sign, body) := split_sign (strip s) in
  let (whole, frac) := break_at "."%char body in
  let frac := match frac with Some f => f | None => EmptyString end in
  match whole, frac with
  | EmptyString, EmptyString => Raise ValueError
  | _, _ =>
      match digits_value 0 whole, digits_value 0 frac with
      | Some w, Some f =>
          Ok (Qred (Qmake (sign * (w * 10 ^ Z.of_nat (String.length frac) + f))
                          (Z.to_pos (10 ^ Z.of_nat (String.length frac)))))
      | _, _ => Raise ValueError
      end
  end.

(** *** [datetime.strptime(s, "%Y%m%d%H%M")]

    [strptime] compiles the format to the regular expression
    [(\d\d\d\d)(1[0-2]|0[1-9]|[1-9])(3[01]|[12]\d|0[1-9]|[1-9]| [1-9])(2[0-3]|[0-1]\d|\d)([0-5]\d|\d)],
    takes its first match at the start of the text (alternatives in order, with
    backtracking), rejects text left over after that match, and builds the
    [datetime], which rejects year 0 and a day the month does not have. Each
    field below lists its ways to match a prefix of the text, in the order the
    expression tries them. *)

Definition in_range (lo hi : Z) (c : ascii) : bool :=
  let n := Z.of_nat (nat_of_ascii c) in (lo + 48 <=? n) && (n <=? hi + 48).

Definition field_matches : Type := list (Z * string).

Definition match_year (s : string) : field_matches :=
  match s with
  | String a (String b (String c (String d rest))) =>
      if is_digit a && is_digit b && is_digit c && is_digit d
      then [(1000 * digit_value a + 100 * digit_value b + 10 * digit_value c + digit_value d, rest)]
      else []
  | _ => []
  end.

(** One alternative made of two characters, each within a range. *)
Definition two_chars (lo1 hi1 lo2 hi2 : Z) (s : string) : field_matches :=
  match s with
  | String a (String b rest) =>
      if in_range lo1 hi1 a && in_range lo2 hi2 b
      then [(10 * digit_value a + digit_value b, rest)] else []
  | _ => []
  end.

(** One alternative made of one character within a range. *)
Definition one_char (lo hi : Z) (s : string) : field_matches :=
  match s with
  | String a rest => if in_range lo hi a then [(digit_value a, rest)] else []
  | _ => []
  end.

(** The alternative [ [1-9]] of the day: a space, then a digit. *)
Definition space_digit (s : string) : field_matches :=
  match s with
  | String " "%char (String b rest) =>
      if in_range 1 9 b then [(digit_value b, rest)] else []
  | _ => []
  end.

Definition match_month (s : string) : field_matches :=
  two_chars 1 1 0 2 s ++ two_chars 0 0 1 9 s ++ one_char 1 9 s.

Definition match_day (s : string) : field_matches :=
  two_chars 3 3 0 1 s ++ two_chars 1 2 0 9 s ++ two_chars 0 0 1 9 s
  ++ one_char 1 9 s ++ space_digit s.

Definition match_hour (s : string) : field_matches :=
  two_chars 2 2 0 3 s ++ two_chars 0 1 0 9 s ++ one_char 0 9 s.

Definition match_minute (s : string) : field_matches :=
  two_chars 0 5 0 9 s ++ one_char 0 9 s.

(** Every way the whole expression matches a prefix, first match first. *)
Definition match_YmdHM (s : string) : list (datetime * string) :=
  '(y, s1) ← match_year s;
  '(mo, s2) ← match_month s1;
  '(d, s3) ← match_day s2;
  '(h, s4) ← match_hour s3;
  '(mi, s5) ← match_minute s4;
  [(mk_datetime y mo d h mi 0 0, s5)].

Definition is_leap (y : Z) : bool :=
  ((y mod 4 =? 0) && negb (y mod 100 =? 0)) || (y mod 400 =? 0).

Definition days_in_month (y m : Z) : Z :=
  if m =? 2 then (if is_leap y then 29 else 28)
  else if (m =? 4) || (m =? 6) || (m =? 9) || (m =? 11) then 30
  else 31.

Definition strptime_YmdHM (s : string) : result datetime :=
  match match_YmdHM s with
  | (d, EmptyString) :: _ =>
      if (1 <=? year d) && (day d <=? days_in_month (year d) (month d))
      then Ok d else Raise ValueError
  | _ => Raise ValueError
  end.

End Py.

(** ** [NBApredict/scrapers/line_scraper.py] *)

Module LineScraper.
Import Py.

(** *** The feed, as section "Odds feed" of the interface gives its shape *)

Record Competitor : Type := mk_competitor {
  c_name : string;
  c_home : bool
}.

Record Price : Type := mk_price {
  american : string;
  handicap : option string          (* the key may be absent *)
}.

Record Outcome : Type := mk_outcome {
  o_type : string;
  o_price : Price
}.

Record Market : Type := mk_market {
  m_description : string;
  m_period : string;                (* bet["period"]["description"] *)
  m_outcomes : list Outcome
}.

Record Event : Type := mk_event {
  e_description : string;
  e_type : string;
  e_link : string;
  e_competitors : list Competitor;
  e_displayGroups : list (list Market)   (* each group's ["markets"] *)
}.

Record EventGroup : Type := mk_group {
  g_events : list Event
}.

(** What [requests.get(url).json()] yields for a URL. *)
Definition Payload : Type := list EventGroup.

(** The surroundings of one run: what each URL answers, what the clock
    shows at its n-th reading, and the two configured URLs. *)
Record World : Type := mk_world {
  http_get : string -> Payload;
  clock : nat -> datetime;
  regularURL : string;
  playoffURL : string
}.

(** What a run leaves behind: the URLs requested, oldest first, and the
    number of times the clock was read. *)
Record Trace : Type := mk_trace {
  requested : list string;
  clock_reads : nat
}.

Definition start : Trace := mk_trace [] 0.

(** Computations that may raise and that extend the trace. *)
Definition M (A : Type) : Type := Eff Trace A.

(** [datetime.now()] *)
Definition now (w : World) : M datetime :=
  fun t => (Ok (clock w (clock_reads t)),
            mk_trace (requested t) (S (clock_reads t))).

(** [requests.get(url, allow_redirects=False).json()] *)
Definition requests_get_json (w : World) (url : string) : M Payload :=
  fun t => (Ok (http_get w url),
            mk_trace (requested t ++ [url]) (clock_reads t)).

Definition bovada_json_request (w : World) (url : string) : M (option Payload) :=
  response <- requests_get_json w url ;;
  if (length response =? 0)%nat then ret None else ret (Some response).

(** *** The three parsers *)

Definition parse_teams (competitors : list Competitor) : result (string * string) :=
  if (2 <? length competitors)%nat
  then Raise (Exception "Unexpected objects in competitors")
  else
    let '(home_team, away_team) :=
      fold_left
        (fun (acc : string * string) (team : Competitor) =>
           let '(home_team, away_team) := acc in
           if c_home team then (c_name team, away_team)
           else (home_team, c_name team))
        competitors ("", "") in
    (* [not home_team == "" or away_team == ""] *)
    if negb (String.eqb home_team "") || String.eqb away_team ""
    then Ok (upper home_team, upper away_team)
    else Raise (Exception "Competitors was not properly parsed. Missing data.").

(** The loop body of [parse_moneyline]. *)
Definition moneyline_step (acc : value * value) (o : Outcome)
  : result (value * value) :=
  let '(home_moneyline, away_moneyline) := acc in
  rbind (if String.eqb (american (o_price o)) "EVEN" then Ok 100
         else py_int (american (o_price o)))
    (fun price =>
       if String.eqb (o_type o) "H" then Ok (VInt price, away_moneyline)
       else if String.eqb (o_type o) "A" then Ok (home_moneyline, VInt price)
       else Ok (home_moneyline, away_moneyline)).

Definition parse_moneyline (moneyline_bet : Market) : result (value * value) :=
  let outcomes := m_outcomes moneyline_bet in
  if (2 <? length outcomes)%nat
  then Raise (Exception "Unexpected objects in moneyline bet")
  else
    rbind (for_each moneyline_step outcomes (VStr "", VStr ""))
      (fun '(home_moneyline, away_moneyline) =>
         (* [not home_moneyline == "" or away_moneyline == ""] *)
         if negb (is_empty_str home_moneyline) || is_empty_str away_moneyline
         then Ok (home_moneyline, away_moneyline)
         else Raise (Exception "Moneyline was not properly parsed. Missing data.")).

(** The loop body of [parse_spread]. *)
Definition spread_step (acc : value * value * value) (o : Outcome)
  : result (value * value * value) :=
  let '(spread, home_spread_price, away_spread_price) := acc in
  if String.eqb (o_type o) "H" then
    rbind (match handicap (o_price o) with
           | Some h => py_float h
           | None => Raise (KeyError "handicap")
           end)
      (fun spread' =>
         rbind (py_int (american (o_price o)))
           (fun price => Ok (VFloat spread', VInt price, away_spread_price)))
  else if String.eqb (o_type o) "A" then
    rbind (py_int (american (o_price o)))
      (fun price => Ok (spread, home_spread_price, VInt price))
  else Ok (spread, home_spread_price, away_spread_price).

Definition parse_spread (spread_bet : Market) : result (value * value * value) :=
  let outcomes := m_outcomes spread_bet in
  if (2 <? length outcomes)%nat
  then Raise (Exception "Unexpected objects in spread bet")
  else
    rbind (for_each spread_step outcomes (VStr "", VStr "", VStr ""))
      (fun '(spread, home_spread_price, away_spread_price) =>
         (* [not spread == "" or home_spread_price == "" or away_spread_price == ""] *)
         if negb (is_empty_str spread) || is_empty_str home_spread_price
            || is_empty_str away_spread_price
         then Ok (spread, home_spread_price, away_spread_price)
         else Raise (Exception "Spread was not properly parsed. Missing data.")).

(** *** [odds_for_today] *)

(** The dictionary of columns: the keys in insertion order (Python 3.7+),
    each with its list of values. *)
Definition Lines : Type := list (string * list value).

Definition empty_lines : Lines :=
  [("home_team", []); ("away_team", []); ("start_time", []); ("spread", []);
   ("home_spread_price", []); ("away_spread_price", []);
   ("home_moneyline", []); ("away_moneyline", []); ("scrape_time", [])].

(** The locals of [odds_for_today] that the loop over the bets assigns. They
    belong to the function, not to one iteration: a value assigned while one
    game is processed is still there when the next game is. *)
Record Locals : Type := mk_locals {
  home_moneyline : option value;
  away_moneyline : option value;
  spread : option value;
  home_spread_price : option value;
  away_spread_price : option value
}.

Definition unbound : Locals := mk_locals None None None None None.

(** Reading a local. *)
Definition read (name : string) (v : option value) : result value :=
  match v with
  | Some x => Ok x
  | None => Raise (UnboundLocalError name)
  end.

(** [if x == "": x = None] *)
Definition blank_to_None (v : value) : value :=
  if is_empty_str v then VNone else v.

(** The body of [for bet in full_match_bets], on the locals and the flag
    [money_lines]. *)
Definition bet_step (acc : Locals * bool) (bet : Market) : result (Locals * bool) :=
  let '(l, money_lines) := acc in
  if String.eqb (m_description bet) "Moneyline" then
    rbind (parse_moneyline bet)
      (fun '(home, away) =>
         Ok (mk_locals (Some (blank_to_None home)) (Some (blank_to_None away))
                       (spread l) (home_spread_price l) (away_spread_price l),
             true))
  else if String.eqb (m_description bet) "Point Spread" then
    rbind (parse_spread bet)
      (fun '(sp, home_price, away_price) =>
         Ok (mk_locals (home_moneyline l) (away_moneyline l)
                       (Some (blank_to_None sp)) (Some (blank_to_None home_price))
                       (Some (blank_to_None away_price)),
             money_lines))
  else Ok (l, money_lines).

(** [for key in lines: lines[key].append(game_lines[i]); i += 1], from
    index [i] on. *)
Fixpoint append_row (lines : Lines) (game_lines : list value) (i : nat)
  : result Lines :=
  match lines with
  | [] => Ok []
  | (key, column) :: rest =>
      match nth_error game_lines i with
      | None => Raise IndexError
      | Some v =>
          rbind (append_row rest game_lines (S i))
            (fun rest' => Ok ((key, column ++ [v]) :: rest'))
      end
  end.

(** The body of [for game in bovada_games]. *)
Definition game_step (w : World) (scrape_time : datetime)
    (acc : Locals * Lines) (game : Event) : M (Locals * Lines) :=
  let '(l, lines) := acc in
  let link := List.last (split_char "-"%char (e_link game)) "" in
  start_time <- lift (strptime_YmdHM (digits_of link)) ;;
  current <- now w ;;
  if datetime_gt current start_time then ret (l, lines)           (* continue *)
  else
    teams <- lift (parse_teams (e_competitors game)) ;;
    betting_info <- lift (match e_displayGroups game with
                          | markets :: _ => Ok markets
                          | [] => Raise IndexError
                          end) ;;
    let full_match_bets :=
      List.filter (fun bet => String.eqb (m_period bet) "Match") betting_info in
    after <- lift (for_each bet_step full_match_bets (l, false)) ;;
    let l1 := fst after in
    let l2 := if snd after then l1
              else mk_locals (Some VNone) (Some VNone) (spread l1)
                             (home_spread_price l1) (away_spread_price l1) in
    sp <- lift (read "spread" (spread l2)) ;;
    hsp <- lift (read "home_spread_price" (home_spread_price l2)) ;;
    asp <- lift (read "away_spread_price" (away_spread_price l2)) ;;
    hml <- lift (read "home_moneyline" (home_moneyline l2)) ;;
    aml <- lift (read "away_moneyline" (away_moneyline l2)) ;;
    let game_lines :=
      [VStr (fst teams); VStr (snd teams); VDatetime start_time; sp; hsp; asp;
       hml; aml; VDatetime scrape_time] in
    lines' <- lift (append_row lines game_lines 0) ;;
    ret (l2, lines').

(** [e['description'].count('@') > 0 and e['type'] == 'GAMEEVENT'] *)
Definition is_game (e : Event) : bool :=
  contains_char "@"%char (e_description e) && String.eqb (e_type e) "GAMEEVENT".

Definition odds_for_today (w : World) : M (option Lines) :=
  scrape_time <- now w ;;
  response <- bovada_json_request w (regularURL w) ;;
  response <- match response with
              | Some r => ret (Some r)
              | None => bovada_json_request w (playoffURL w)
              end ;;
  match response with
  | None => ret None
  | Some response =>
      events <- lift (match response with
                      | group :: _ => Ok (g_events group)
                      | [] => Raise IndexError
                      end) ;;
      let bovada_games := List.filter is_game events in
      match bovada_games with
      | [] => ret None
      | _ =>
          final <- for_each_M (game_step w scrape_time) bovada_games
                     (unbound, empty_lines) ;;
          ret (Some (snd final))
      end
  end.

(** What [scrape] returns: [False], or the dictionary of columns. *)
Inductive scraped : Type :=
| ScrapeFalse
| ScrapeLines (lines : Lines).

(** [scrape], up to its first [return]; the statements after it are never
    run. [not lines] holds for [None] and for a dictionary without keys. *)
Definition scrape (w : World) : M scraped :=
  lines <- odds_for_today w ;;
  match lines with
  | None => ret ScrapeFalse
  | Some [] => ret ScrapeFalse
  | Some lines => ret (ScrapeLines lines)
  end.

(** *** The odds table and [update_odds_table] *)

(** A row as [dict_to_rows] hands it over: the nine scraped columns. *)
Record OddsDict : Type := mk_odds_dict {
  d_home_team : string;
  d_away_team : string;
  d_start_time : datetime;
  d_spread : value;
  d_home_spread_price : value;
  d_away_spread_price : value;
  d_home_moneyline : value;
  d_away_moneyline : value;
  d_scrape_time : datetime
}.

(** A mapped object of the odds table: the columns and the foreign key. *)
Record OddsRow : Type := mk_odds_row {
  columns : OddsDict;
  game_id : option Z
}.

Record SchedRow : Type := mk_sched_row {
  s_id : Z;
  s_home_team : string;
  s_away_team : string;
  s_start_time : datetime
}.

(** The Game Identity: the columns of the table's [UniqueConstraint]. *)
Definition Identity : Type := string * string * datetime.

Definition dict_identity (d : OddsDict) : Identity :=
  (d_home_team d, d_away_team d, d_start_time d).

Definition identity (r : OddsRow) : Identity := dict_identity (columns r).

Definition sched_identity (g : SchedRow) : Identity :=
  (s_home_team g, s_away_team g, s_start_time g).

#[global] Instance OddsDict_eq_dec : EqDecision OddsDict.
Proof. solve_decision. Defined.

#[global] Instance OddsRow_eq_dec : EqDecision OddsRow.
Proof. solve_decision. Defined.

(** The session as [update_odds_table] sees it (SQLAlchemy itself is outside
    the repository): the rows of the odds table with the session's pending
    changes applied, and the schedule, which is only read. [eager] says when the
    table's unique constraint is checked: [true] when adding a row already
    raises [IntegrityError], as the handlers of [update_odds_table] expect,
    [false] when the check is left to a later flush. *)
Record Session : Type := mk_session {
  odds : list OddsRow;
  sched : list SchedRow;
  eager : bool
}.

Definition DB (A : Type) : Type := Eff Session A.

(** [session.query(odds_table).filter(<the three columns equal k>).all()] *)
Definition query_odds (k : Identity) : DB (list OddsRow) :=
  fun s => (Ok (List.filter (fun r => bool_decide (identity r = k)) (odds s)), s).

(** [session.query(sched_tbl).filter(<the three columns equal k>).all()] *)
Definition query_sched (k : Identity) : DB (list SchedRow) :=
  fun s => (Ok (List.filter (fun g => bool_decide (sched_identity g = k)) (sched s)), s).

(** Removing one object from a table: its first occurrence. *)
Fixpoint remove_first (x : OddsRow) (tbl : list OddsRow) : list OddsRow :=
  match tbl with
  | [] => []
  | y :: tbl' => if bool_decide (x = y) then tbl' else y :: remove_first x tbl'
  end.

(** [session.delete(obj)] *)
Definition session_delete (obj : OddsRow) : DB unit :=
  fun s => (Ok tt, mk_session (remove_first obj (odds s)) (sched s) (eager s)).

(** Whether a row of the table already has the identity of [obj]. *)
Definition conflicts (tbl : list OddsRow) (obj : OddsRow) : bool :=
  existsb (fun r => bool_decide (identity r = identity obj)) tbl.

(** The table after the objects are added in order, or [None] when one of
    them meets a row with its identity. *)
Fixpoint insert_all (tbl : list OddsRow) (objs : list OddsRow)
  : option (list OddsRow) :=
  match objs with
  | [] => Some tbl
  | obj :: objs' =>
      if conflicts tbl obj then None else insert_all (tbl ++ [obj]) objs'
  end.

(** [session.add_all(objs)]: all of them or, on a conflict, none. *)
Definition session_add_all (objs : list OddsRow) : DB unit :=
  fun s =>
    if eager s then
      match insert_all (odds s) objs with
      | Some tbl => (Ok tt, mk_session tbl (sched s) (eager s))
      | None => (Raise IntegrityError, s)
      end
    else (Ok tt, mk_session (odds s ++ objs) (sched s) (eager s)).

(** [session.add(obj)] *)
Definition session_add (obj : OddsRow) : DB unit := session_add_all [obj].

(** The body of [for row in rows], on the list [row_objects]. *)
Definition odds_row_step (row_objects : list OddsRow) (row : OddsDict)
  : DB (list OddsRow) :=
  existing_rows <- query_odds (dict_identity row) ;;
  _ <- (if (0 <? length existing_rows)%nat
        then for_each_M (fun _ exist_row => session_delete exist_row)
                        existing_rows tt
        else ret tt) ;;
  let row_object := mk_odds_row row None in
  game <- query_sched (identity row_object) ;;
  if (1 <? length game)%nat
  then raise (Exception "More than one game matches the row")
  else
    match game with
    | [] => raise IndexError                                   (* game[0] *)
    | game0 :: _ =>
        ret (row_objects ++ [mk_odds_row row (Some (s_id game0))])
    end.

Definition update_odds_table (rows : list OddsDict) : DB unit :=
  if (length rows =? 0)%nat then ret tt
  else
    row_objects <- for_each_M odds_row_step rows [] ;;
    try_except_IntegrityError
      (session_add_all row_objects)
      (for_each_M
         (fun _ row => try_except_IntegrityError (session_add row) (ret tt))
         row_objects tt).

(** *** Notions used to state the properties of the scraper *)


(** What [odds_for_today] does with the payload it settled on. *)
Definition read_payload (w : World) (scrape_time : datetime)
    (response : option Payload) : M (option Lines) :=
  match response with
  | None => ret None
  | Some response =>
      events <- lift (match response with
                      | group :: _ => Ok (g_events group)
                      | [] => Raise IndexError
                      end) ;;
      let bovada_games := List.filter is_game events in
      match bovada_games with
      | [] => ret None
      | _ =>
          final <- for_each_M (game_step w scrape_time) bovada_games
                     (unbound, empty_lines) ;;
          ret (Some (snd final))
      end
  end.

(** The payload that [odds_for_today] ends up reading. *)
Definition answering (w : World) : Payload :=
  match http_get w (regularURL w) with
  | [] => http_get w (playoffURL w)
  | payload => payload
  end.


(** The nine columns of a scraped row, in the order of the dictionary. *)
Definition column_names : list string :=
  ["home_team"; "away_team"; "start_time"; "spread"; "home_spread_price";
   "away_spread_price"; "home_moneyline"; "away_moneyline"; "scrape_time"].

(** A dictionary with the nine keys, in order, whose columns all hold [n]
    values. *)
Definition rectangular (n : nat) (lines : Lines) : Prop :=
  map fst lines = column_names
  /\ Forall (fun column => length (snd column) = n) lines.

(** The rows of a table with the Game Identity [k]. *)
Definition with_identity (k : Identity) (tbl : list OddsRow) : list OddsRow :=
  List.filter (fun r => bool_decide (identity r = k)) tbl.

(** The rows of a table with any other identity. *)
Definition without_identity (k : Identity) (tbl : list OddsRow) : list OddsRow :=
  List.filter (fun r => negb (bool_decide (identity r = k))) tbl.

(** Deleting objects one after the other. *)
Definition delete_all (objs tbl : list OddsRow) : list OddsRow :=
  fold_left (fun t obj => remove_first obj t) objs tbl.

(** Adding objects one after the other, passing over those that meet a row
    with their identity. *)
Definition add_or_skip (tbl : list OddsRow) (obj : OddsRow) : list OddsRow :=
  if conflicts tbl obj then tbl else tbl ++ [obj].

(** The schedule holds exactly one game with the identity of the row. *)
Definition scheduled (schedule : list SchedRow) (row : OddsDict) (g : SchedRow)
  : Prop :=
  List.filter (fun g => bool_decide (sched_identity g = dict_identity row)) schedule
  = [g].

(** The object that [update_odds_table] builds for a row of the batch. *)
Definition built (schedule : list SchedRow) (row : OddsDict) (obj : OddsRow)
  : Prop :=
  exists g, scheduled schedule row g /\ obj = mk_odds_row row (Some (s_id g)).

(** A table after the rows of every identity of the batch are deleted. *)
Definition purge (rows : list OddsDict) (tbl : list OddsRow) : list OddsRow :=
  fold_left (fun t row => without_identity (dict_identity row) t) rows tbl.

(** The table that the last statement of [update_odds_table] leaves. *)
Definition added (check : bool) (tbl objs : list OddsRow) : list OddsRow :=
  if check then
    match insert_all tbl objs with
    | Some tbl' => tbl'
    | None => fold_left add_or_skip objs tbl
    end
  else tbl ++ objs.

(** The price of a moneyline outcome: "EVEN" is 100, anything else is read
    by [int]. *)
Definition moneyline_price (text : string) : result Z :=
  if String.eqb text "EVEN" then Ok 100 else py_int text.

(** The exceptions that [parse_spread] can end in. *)
Definition spread_failure (e : exn) : Prop :=
  e = Exception "Unexpected objects in spread bet"
  \/ e = ValueError \/ e = KeyError "handicap".

(** The loop body of [odds_for_today] after the test on the start time: the
    locals after the bets of the game, and the row [game_lines]. *)
Definition row_of_game (scrape_time start_time : datetime) (l : Locals)
    (game : Event) : result (Locals * list value) :=
  rbind (parse_teams (e_competitors game)) (fun teams =>
  rbind (match e_displayGroups game with
         | markets :: _ => Ok markets
         | [] => Raise IndexError
         end) (fun betting_info =>
  let full_match_bets :=
    List.filter (fun bet => String.eqb (m_period bet) "Match") betting_info in
  rbind (for_each bet_step full_match_bets (l, false)) (fun after =>
  let l1 := fst after in
  let l2 := if snd after then l1
            else mk_locals (Some VNone) (Some VNone) (spread l1)
                           (home_spread_price l1) (away_spread_price l1) in
  rbind (read "spread" (spread l2)) (fun sp =>
  rbind (read "home_spread_price" (home_spread_price l2)) (fun hsp =>
  rbind (read "away_spread_price" (away_spread_price l2)) (fun asp =>
  rbind (read "home_moneyline" (home_moneyline l2)) (fun hml =>
  rbind (read "away_moneyline" (away_moneyline l2)) (fun aml =>
  Ok (l2, [VStr (fst teams); VStr (snd teams); VDatetime start_time; sp; hsp;
           asp; hml; aml; VDatetime scrape_time]))))))))).

(** The start time that [odds_for_today] reads off the link of a game. *)
Definition start_time_of (game : Event) : result datetime :=
  strptime_YmdHM (digits_of (List.last (split_char "-"%char (e_link game)) "")).

(** The world in which each feed answers with the game events of its first
    group and nothing else. *)
Definition games_only (w : World) : World :=
  mk_world
    (fun url => match http_get w url with
                | [] => []
                | group :: _ => [mk_group (List.filter is_game (g_events group))]
                end)
    (clock w) (regularURL w) (playoffURL w).

(** The Match markets of the first display group of a game. *)
Definition match_bets (game : Event) : list Market :=
  match e_displayGroups game with
  | markets :: _ => List.filter (fun bet => String.eqb (m_period bet) "Match") markets
  | [] => []
  end.

(** The game events that [odds_for_today] loops over: those of the first
    group of the payload that answers. *)
Definition feed_games (w : World) : list Event :=
  match answering w with
  | [] => []
  | group :: _ => List.filter is_game (g_events group)
  end.

(** The games of a list that are not passed over, when the clock has been
    read [reads] times before the first of them: each game reads the clock
    once, and is passed over when its start time is before that reading. *)
Fixpoint emitted (w : World) (reads : nat) (games : list Event) : list Event :=
  match games with
  | [] => []
  | game :: games' =>
      match start_time_of game with
      | Ok start_time =>
          if datetime_gt (clock w reads) start_time then emitted w (S reads) games'
          else game :: emitted w (S reads) games'
      | Raise _ => []
      end
  end.

(** The last market of the given description among [bets]: the one whose
    values the locals hold when the loop over the bets ends. *)
Fixpoint last_of (description : string) (bets : list Market) : option Market :=
  match bets with
  | [] => None
  | bet :: rest =>
      match last_of description rest with
      | Some m => Some m
      | None =>
          if String.eqb (m_description bet) description then Some bet else None
      end
  end.

(** A market that its parser accepts, if it is a moneyline or a point
    spread. *)
Definition parses (bet : Market) : Prop :=
  (m_description bet = "Moneyline" -> exists r, parse_moneyline bet = Ok r)
  /\ (m_description bet = "Point Spread" -> exists r, parse_spread bet = Ok r).

End LineScraper.

(** ** [NBApredict/predict/bets.py] *)

Module Bets.
Import Py.

(** *** Comparing numbers *)

Definition num_eq (a b : Q) : bool :=
  match Qcompare a b with Eq => true | _ => false end.

Definition num_lt (a b : Q) : bool :=
  match Qcompare a b with Lt => true | _ => false end.

Definition num_gt (a b : Q) : bool :=
  match Qcompare a b with Gt => true | _ => false end.

(** *** [line_probability] *)

(** What [line_probability] hands back: a pair of a probability and a tag,
    a bare probability, or [None] when no [return] is reached. *)
Inductive probability : Type :=
| Tagged (p : Q) (tag : string)
| Bare (p : Q)
| NoValue.

Section LineProbability.

(** [stats.norm(loc, scale).cdf(x)] and [.sf(x)], from SciPy. *)
Variable norm_cdf : Q -> Q -> Q -> Q.
Variable norm_sf : Q -> Q -> Q -> Q.

Definition line_probability (prediction line std : Q) : probability :=
  let line_prediction := (inject_Z (-1) * line)%Q in
  if num_gt prediction line_prediction
  then Tagged (norm_cdf prediction std line_prediction) "cdf"
  else if num_lt prediction line_prediction
  then Tagged (norm_sf prediction std line_prediction) "sf"
  else if num_eq prediction line_prediction
  then Bare (1 # 2)
  else NoValue.

End LineProbability.

(** *** The prediction table *)

(** The values of the column [bet_result]: "WIN", "LOSS", "PUSH". *)
Inductive BetResult : Type := WIN | LOSS | PUSH.

(** A mapped object of the prediction table; a NULL column is [None]. *)
Record PredRow : Type := mk_pred_row {
  home_team : string;
  away_team : string;
  start_time : datetime;
  home_team_score : option Z;
  away_team_score : option Z;
  line : option Q;
  prediction : option Q;
  bet_result : option BetResult
}.

Definition set_bet_result (row : PredRow) (b : BetResult) : PredRow :=
  mk_pred_row (home_team row) (away_team row) (start_time row)
    (home_team_score row) (away_team_score row) (line row) (prediction row)
    (Some b).

(** What the session did to the transaction, oldest first. *)
Inductive TxEvent : Type := Committed | RolledBack | Closed.

(** The session: the objects it holds (an object is its position in [preds];
    a query hands out positions, and assigning to an attribute of a queried
    object changes the row at that position), the table as of the last commit,
    and the transaction events so far. *)
Record Session : Type := mk_session {
  preds : list PredRow;
  committed : list PredRow;
  log : list TxEvent
}.

Definition DB (A : Type) : Type := Eff Session A.

(** The operand of an arithmetic operator or an ordering comparison: [None]
    there is a [TypeError]. *)
Definition operand {A : Type} (v : option A) : result A :=
  match v with
  | Some x => Ok x
  | None => Raise TypeError
  end.

(** The body of the loop of [update_bet_results] for one row: the row with
    its [bet_result] assigned. [and] evaluates its right operand only when the
    left one holds. *)
Definition grade (row : PredRow) : result PredRow :=
  rbind (operand (home_team_score row)) (fun home =>
  rbind (operand (away_team_score row)) (fun away =>
  let score_margin := inject_Z (home - away) in
  rbind (operand (line row)) (fun ln =>
  let line_inverse := (ln * inject_Z (-1))%Q in
  let prediction := prediction row in
  if num_eq score_margin line_inverse then Ok (set_bet_result row PUSH)
  else
    rbind (if num_lt score_margin line_inverse
           then rbind (operand prediction) (fun p => Ok (num_lt p line_inverse))
           else Ok false) (fun below =>
    if below then Ok (set_bet_result row WIN)
    else
      rbind (if num_gt score_margin line_inverse
             then rbind (operand prediction) (fun p => Ok (num_gt p line_inverse))
             else Ok false) (fun above =>
      if above then Ok (set_bet_result row WIN)
      else Ok (set_bet_result row LOSS)))))).

(** [update_bet_results]: the objects are graded in place, in order, and
    the same list of objects is returned. *)
Definition grade_object (_ : unit) (i : nat) : DB unit :=
  fun s =>
    match preds s !! i with
    | None => (Raise IndexError, s)            (* not an object of the session *)
    | Some row =>
        match grade row with
        | Ok row' =>
            (Ok tt, mk_session (<[i := row']> (preds s)) (committed s) (log s))
        | Raise e => (Raise e, s)
        end
    end.

Definition update_bet_results (bet_update_objects : list nat) : DB (list nat) :=
  _ <- for_each_M grade_object bet_update_objects tt ;;
  ret bet_update_objects.

(** [session.query(pred_tbl).filter(p).all()]: the positions of the rows that
    satisfy [p], in table order. *)
Fixpoint positions (p : PredRow -> bool) (rows : list PredRow) (i : nat) : list nat :=
  match rows with
  | [] => []
  | row :: rows' =>
      if p row then i :: positions p rows' (S i) else positions p rows' (S i)
  end.

Definition query (p : PredRow -> bool) : DB (list nat) :=
  fun s => (Ok (positions p (preds s) 0), s).

(** SQL's [column == 0] and [column > 0]: never true of NULL. *)
Definition sql_is_zero (v : option Z) : bool :=
  match v with Some z => z =? 0 | None => false end.

Definition sql_positive (v : option Z) : bool :=
  match v with Some z => 0 <? z | None => false end.

(** [or_(pred_tbl.home_team_score == 0, pred_tbl.away_team_score == 0)] *)
Definition score_filter (row : PredRow) : bool :=
  sql_is_zero (home_team_score row) || sql_is_zero (away_team_score row).

(** [pred_tbl.bet_result.is_(None), pred_tbl.home_team_score > 0] *)
Definition bet_filter (row : PredRow) : bool :=
  match bet_result row with None => true | Some _ => false end
  && sql_positive (home_team_score row).

(** [session.add_all(objs)] for objects the session already holds. *)
Definition add_all_held (objs : list nat) : DB unit := ret tt.

Definition update_prediction_table : DB unit :=
  score_update_objs <- query score_filter ;;
  _ <- add_all_held score_update_objs ;;
  bet_update_objs <- query bet_filter ;;
  bet_update_objs <- update_bet_results bet_update_objs ;;
  add_all_held bet_update_objs.

(** *** Persisting predictions: [predict_games_on_date] *)

(** The names bound at module level of [bets.py]: its imports and its
    functions. Reading any other global name is a [NameError]. *)
Definition module_names : list string :=
  ["datetime"; "np"; "pd"; "stats"; "Session"; "or_"; "IntegrityError";
   "Config"; "br_references"; "Database"; "DataOperator"; "getters";
   "conversion"; "predictions"; "ff_reg";
   "get_prediction"; "get_team_name"; "get_team_ff"; "line_probability";
   "prediction_result_console_output"; "insert_predictions";
   "insert_new_predictions"; "update_prediction_table"; "update_bet_results";
   "get_sample_prediction"; "predict_game"; "predict_games_in_odds";
   "predict_games_on_day"; "predict_games_on_date"; "predict_all"].

Definition global (name : string) : result unit :=
  if existsb (String.eqb name) module_names then Ok tt
  else Raise (NameError name).

Definition pred_identity (row : PredRow) : string * string * datetime :=
  (home_team row, away_team row, start_time row).

(** Whether no two rows share a Game Identity. *)
Fixpoint unique (rows : list PredRow) : bool :=
  match rows with
  | [] => true
  | row :: rows' =>
      negb (existsb (fun r => bool_decide (pred_identity r = pred_identity row)) rows')
      && unique rows'
  end.

(** [session.add_all(rows)] for new objects: they are pending until the
    next commit. *)
Definition session_add_all (rows : list PredRow) : DB unit :=
  fun s => (Ok tt, mk_session (preds s ++ rows) (committed s) (log s)).

(** Modelled from the spec: the prediction table is declared outside the
    files at hand; by the data model no two of its records share a Game
    Identity, so [session.commit()] raises [IntegrityError] when the rows to
    write break that, and writes them otherwise. *)
Definition session_commit : DB unit :=
  fun s =>
    if unique (preds s)
    then (Ok tt, mk_session (preds s) (preds s) (log s ++ [Committed]))
    else (Raise IntegrityError, s).

(** [session.rollback()]: back to the table as last committed. *)
Definition session_rollback : DB unit :=
  fun s => (Ok tt, mk_session (committed s) (committed s) (log s ++ [RolledBack])).

(** [session.close()] *)
Definition session_close : DB unit :=
  fun s => (Ok tt, mk_session (preds s) (committed s) (log s ++ [Closed])).

Definition insert_predictions_params : list string :=
  ["rows"; "session"; "pred_tbl"; "sched_tbl"].

(** [insert_predictions]: the row objects are built, then the global
    [update_schedule_attributes] is read; [session.add_all] comes after it. *)
Definition insert_predictions (rows : list PredRow) : DB unit :=
  let row_objects := rows in
  _ <- lift (global "update_schedule_attributes") ;;
  session_add_all row_objects.

(** [predict_games_on_day]: building the arguments of [ff_reg.main] reads the
    global [year]. Past that, [predict_game] is called once per game with
    keywords it does not declare ([database], [home_tm], ...), a [TypeError]
    that [except AttributeError] does not handle. *)
Definition predict_games_on_day {G : Type} (games : list G) : DB (list PredRow) :=
  _ <- lift (global "year") ;;
  match games with
  | [] => ret []
  | _ :: _ => raise TypeError
  end.

(** The [try] statement that ends [predict_games_on_date] (lines 355-363),
    for the rows [data.data]. The call of [insert_predictions] passes five
    positional arguments. *)
Definition persist_results (data : list PredRow) : DB unit :=
  try_finally
    (try_except_IntegrityError
       (_ <- call insert_predictions_params 5 (insert_predictions data) ;;
        session_commit)
       (_ <- session_rollback ;;
        _ <- update_prediction_table ;;
        session_commit))
    session_close.

(** [predict_games_on_date], from the games [get_spreads_for_date] found. *)
Definition predict_games_on_date {G : Type} (game_spreads : list G) : DB unit :=
  results <- predict_games_on_day game_spreads ;;
  persist_results results.

(** *** [insert_new_predictions] *)

(** [game_identifier in existing_predictions] *)
Definition already_predicted (existing : list (string * string * datetime))
    (row : PredRow) : bool :=
  existsb (fun k => bool_decide (k = pred_identity row)) existing.

(** [insert_new_predictions]: the identities of the table are queried once,
    the rows whose identity is not among them are collected in order, and if
    there is any, the globals [update_odds_id] and
    [update_schedule_attributes] are read before [session.add_all]. *)
Definition insert_new_predictions (rows : list PredRow) : DB unit :=
  existing_predictions <- (fun s => (Ok (map pred_identity (preds s)), s)) ;;
  let row_objects :=
    fold_left
      (fun row_objects row =>
         if already_predicted existing_predictions row then row_objects
         else row_objects ++ [row])
      rows [] in
  if (0 <? length row_objects)%nat then
    _ <- lift (global "update_odds_id") ;;
    _ <- lift (global "update_schedule_attributes") ;;
    session_add_all row_objects
  else ret tt.

(** *** [prediction_result_console_output] *)

(** A line that [prediction_result_console_output] prints, by its template
    and the values that fill it: "The H are projected to beat (or to lose to)
    the A by P points", and "If the model were true, the betting line's (L)
    CDF (or SF), in relation to the prediction, would be realized X% of the
    time". *)
Inductive printed (A : Type) : Type :=
| Projected (beat : bool) (home_tm away_tm : string) (prediction : Q)
| Realized (cdf : bool) (line : Q) (probability : A).

Arguments Projected {A} beat home_tm away_tm prediction.
Arguments Realized {A} cdf line probability.

(** The lines printed, in order. *)
Definition prediction_result_console_output {A : Type} (home_tm away_tm : string)
    (line prediction : Q) (probability : A) : list (printed A) :=
  (if num_gt prediction 0
   then [Projected true home_tm away_tm prediction;
         Realized (num_lt (inject_Z (-1) * line) prediction) line probability]
   else [])
  ++
  (if num_lt prediction 0
   then [Projected false home_tm away_tm prediction;
         Realized (num_lt (inject_Z (-1) * line) prediction) line probability]
   else []).

(** *** [get_team_name] *)

(** [str.lower] on ASCII text: the letters A-Z are mapped to a-z and every
    other byte is kept. As for [upper], text outside ASCII is not followed:
    the statements about [get_team_name] that rest on the case mapping assume
    [is_ascii] of the names involved. *)
Definition lower_ascii (c : ascii) : ascii :=
  let n := nat_of_ascii c in
  if (65 <=? n)%nat && (n <=? 90)%nat then ascii_of_nat (n + 32) else c.

Fixpoint lower (s : string) : string :=
  match s with
  | EmptyString => EmptyString
  | String c s' => String (lower_ascii c) (lower s')
  end.

(** [get_team_name], over the values of the enumeration [br_references.Team]
    in its order (the enumeration is declared outside the files at hand):
    the first value that equals [team] up to case, [None] when the loop ends
    without a [return]. *)
Fixpoint get_team_name (teams : list string) (team : string) : option string :=
  match teams with
  | [] => None
  | team_name :: teams' =>
      if String.eqb (lower team) (lower team_name) then Some team_name
      else get_team_name teams' team
  end.

(** *** Notions used to state further properties *)

(** A row with home and away swapped: the scores change places and the line
    and the prediction change sign. *)
Definition mirrored (row : PredRow) : PredRow :=
  mk_pred_row (away_team row) (home_team row) (start_time row)
    (away_team_score row) (home_team_score row)
    (option_map Qopp (line row)) (option_map Qopp (prediction row))
    (bet_result row).

(** The rows on which [grade] raises: a score or the line is NULL, or the
    prediction is NULL and has to be compared (the margin is not on the
    line). *)
Definition ungradable (row : PredRow) : Prop :=
  home_team_score row = None \/ away_team_score row = None \/ line row = None
  \/ (prediction row = None
      /\ forall h a l, home_team_score row = Some h -> away_team_score row = Some a ->
                       line row = Some l -> ~ (inject_Z (h - a) == - l)%Q).

(** Two rows that differ in [bet_result] at most. *)
Definition same_but_result (row row' : PredRow) : Prop :=
  row' = row \/ exists b, row' = set_bet_result row b.

(** *** Notions used to state the properties of the settlement *)

(** The grading rule in the words of the settlement engine's description:
    with [line_inverse] the negated line, a margin equal to it is a PUSH;
    otherwise margin and prediction both strictly below it, or both strictly
    above it, is a WIN; every other case is a LOSS. *)
Definition settles (score_margin line prediction : Q) (b : BetResult) : Prop :=
  let line_inverse := (- line)%Q in
  let same_side :=
    ((score_margin < line_inverse)%Q /\ (prediction < line_inverse)%Q)
    \/ ((line_inverse < score_margin)%Q /\ (line_inverse < prediction)%Q) in
  ((score_margin == line_inverse)%Q -> b = PUSH)
  /\ (~ (score_margin == line_inverse)%Q -> same_side -> b = WIN)
  /\ (~ (score_margin == line_inverse)%Q -> ~ same_side -> b = LOSS).

(** A row all of whose four inputs are numbers. *)
Definition numeric (row : PredRow) (h a : Z) (l p : Q) : Prop :=
  home_team_score row = Some h /\ away_team_score row = Some a
  /\ line row = Some l /\ prediction row = Some p.

(** A row that [update_bet_results] can grade. *)
Definition gradable (row : PredRow) : Prop :=
  exists h a l p, numeric row h a l p.

(** Two rows with the same teams, start time, scores, line and
    prediction. *)
Definition same_inputs (row row' : PredRow) : Prop :=
  home_team row' = home_team row /\ away_team row' = away_team row
  /\ start_time row' = start_time row
  /\ home_team_score row' = home_team_score row
  /\ away_team_score row' = away_team_score row
  /\ line row' = line row /\ prediction row' = prediction row.

(** The [except IntegrityError] branch of [predict_games_on_date]
    (lines 359-361). *)
Definition recover : DB unit :=
  _ <- session_rollback ;;
  _ <- update_prediction_table ;;
  session_commit.

(** The [try] statement of [predict_games_on_date] (lines 355-363) around
    any guarded statements [body]. *)
Definition guarded (body : DB unit) : DB unit :=
  try_finally (try_except_IntegrityError body recover) session_close.

(** A session whose table, as last committed, keeps the unique constraint:
    what a commit leaves, and what no operation of the session undoes. *)
Definition consistent (s : Session) : Prop := unique (committed s) = true.


(** Text of ASCII characters only, on which [upper] and [lower] are
    [str.upper] and [str.lower]. *)
Definition is_ascii (s : string) : bool :=
  forallb (fun c => (nat_of_ascii c <? 128)%nat) (list_ascii_of_string s).

End Bets.

(** ** [general.py] *)

Module General.
Import Py.

Section Casts.

(** [int(x)] and [float(x)] on a string, Python's own. *)
Variable int_of : string -> result Z.
Variable float_of : string -> result Q.

(** [is_int]: [True] when [int(x)] returns, [False] when it raises
    [ValueError]; any other exception is not handled. *)
Definition is_int (x : string) : result bool :=
  match int_of x with
  | Ok _ => Ok true
  | Raise ValueError => Ok false
  | Raise e => Raise e
  end.

Definition is_float (x : string) : result bool :=
  match float_of x with
  | Ok _ => Ok true
  | Raise ValueError => Ok false
  | Raise e => Raise e
  end.

(** [_set_type]: every value of length 0 becomes [None], every other value
    is converted by [new_type]. *)
Definition _set_type (values : list string) (new_type : string -> result value)
  : result (list value) :=
  for_each
    (fun new_vals i =>
       if (0 <? String.length i)%nat
       then rbind (new_type i) (fun v => Ok (new_vals ++ [v]))
       else Ok (new_vals ++ [VNone]))
    values [].

(** [int] and [float] as [_set_type] applies them. *)
Definition as_int (x : string) : result value := rbind (int_of x) (fun z => Ok (VInt z)).

Definition as_float (x : string) : result value :=
  rbind (float_of x) (fun q => Ok (VFloat q)).

(** [set_type]: the first value decides how all of them are converted. *)
Definition set_type (values : list string) : result (list value) :=
  match values with
  | [] => Raise IndexError                                   (* values[0] *)
  | test_val :: _ =>
      rbind (is_int test_val) (fun whole =>
      if whole then _set_type values as_int
      else
        rbind (is_float test_val) (fun decimal =>
        if decimal then _set_type values as_float
        else Ok (map (fun x => if (0 <? String.length x)%nat then VStr x else VNone)
                     values)))
  end.

End Casts.

(** The name that [get_type] gives to the type of a value. *)
Definition type_name (v : value) : string :=
  match v with
  | VInt _ => "integer"
  | VFloat _ => "float"
  | _ => "string"
  end.

(** [l.count(x)] *)
Definition count (x : string) (l : list string) : nat :=
  length (List.filter (String.eqb x) l).

(** [max(..., key=key)] from a first candidate on: a later element wins only
    with a strictly larger key. *)
Fixpoint max_from (key : string -> nat) (best : string) (rest : list string)
  : string :=
  match rest with
  | [] => best
  | x :: rest' =>
      if (key best <? key x)%nat then max_from key x rest' else max_from key best rest'
  end.

(** [get_type]. [order] is the order in which the set of the type names is
    iterated, which Python does not fix; [max] of an empty set raises
    [ValueError]. *)
Definition get_type (order : list string) (values : list value) : result string :=
  let val_types := map type_name values in
  match order with
  | [] => Raise ValueError
  | first :: rest => Ok (max_from (fun t => count t val_types) first rest)
  end.

(** How [_set_type] relates a value to what it puts in its place. *)
Definition converted (new_type : string -> result value) (x : string) (v : value)
  : Prop :=
  if String.eqb x "" then v = VNone else new_type x = Ok v.

(** What [set_type] does to a value when it converts nothing. *)
Definition blank_or_text (x : string) : value :=
  if String.eqb x "" then VNone else VStr x.

End General.

(** ** [run/all.py] and [run/daily.py] *)

Module Run.
Import Py Bets.

(** [predict_all] is declared with one parameter, [db]. *)
Definition predict_all_params : list string := ["db"].

Section RunAll.

(** [scraper.scrape_all(db, session, year)], from a module outside the files
    at hand, and the body of [bets.predict_all]. *)
Variable scrape_all : DB unit.
Variable predict_all : DB unit.

(** [run_all]: scrape, commit, predict, commit, close. The call of
    [predict_all] passes two positional arguments, [db] and [session]. *)
Definition run_all : DB unit :=
  _ <- scrape_all ;;
  _ <- session_commit ;;
  _ <- call predict_all_params 2 predict_all ;;
  _ <- session_commit ;;
  session_close.

End RunAll.

(** The loop of [daily.py] that collects the dates from today on. A date is
    its day number ([date.toordinal()]), so that [date + timedelta(days=1)]
    is the next number. *)
Equations game_dates_loop (date end_date : Z) (game_dates : list Z) : list Z
  by wf (Z.to_nat (end_date - date + 1)) lt :=
  game_dates_loop date end_date game_dates with Z_le_dec date end_date := {
    | left _ => game_dates_loop (date + 1) end_date (game_dates ++ [date + 1])
    | right _ => game_dates }.
Next Obligation. lia. Qed.

(** [date = start_date; game_dates = [date]; while date <= end_date: ...] *)
Definition game_dates (start_date end_date : Z) : list Z :=
  game_dates_loop start_date end_date [start_date].

(** The days from [first] on, [n] of them. *)
Definition days_from (first : Z) (n : nat) : list Z :=
  map (fun k => first + Z.of_nat k) (seq 0 n).

End Run.

(** ** Sample data *)

Module Fixtures.
Import Py LineScraper Bets.

Definition noon : datetime := mk_datetime 2025 3 26 12 0 5 17.

Definition moneyline (home away : string) : Market :=
  mk_market "Moneyline" "Match"
    [mk_outcome "H" (mk_price home None); mk_outcome "A" (mk_price away None)].

Definition point_spread : Market :=
  mk_market "Point Spread" "Match"
    [mk_outcome "H" (mk_price "-110" (Some "-4.5"));
     mk_outcome "A" (mk_price "-110" (Some "+4.5"))].

(** Lakers at home against the Celtics at 19:30, spread and moneyline posted. *)
Definition lakers_celtics : Event :=
  mk_event "Boston Celtics @ Los Angeles Lakers" "GAMEEVENT"
    "/basketball/nba/boston-celtics-los-angeles-lakers-202503261930"
    [mk_competitor "Lakers" true; mk_competitor "Celtics" false]
    [[point_spread; moneyline "-200" "+180"]].

(** Heat at home against the Bulls at 20:00: a moneyline at even money on the
    home side, and no point spread. *)
Definition heat_bulls : Event :=
  mk_event "Chicago Bulls @ Miami Heat" "GAMEEVENT"
    "/basketball/nba/chicago-bulls-miami-heat-202503262000"
    [mk_competitor "Heat" true; mk_competitor "Bulls" false]
    [[moneyline "EVEN" "-120"]].

(** Knicks at home against the Nets at 21:00: a point spread, and a moneyline
    that prices the away side only. *)
Definition knicks_nets : Event :=
  mk_event "Brooklyn Nets @ New York Knicks" "GAMEEVENT"
    "/basketball/nba/brooklyn-nets-new-york-knicks-202503262100"
    [mk_competitor "Knicks" true; mk_competitor "Nets" false]
    [[point_spread;
      mk_market "Moneyline" "Match" [mk_outcome "A" (mk_price "+180" None)]]].

(** A world at noon of the game day whose two feeds answer as given. *)
Definition world (regular playoff : Payload) : World :=
  mk_world
    (fun url => if String.eqb url "regular" then regular
                else if String.eqb url "playoff" then playoff else [])
    (fun _ => noon) "regular" "playoff".

(** A finished game, home 100 to 95, line -4.5, prediction 6.0, not graded. *)
Definition finished : PredRow :=
  mk_pred_row "LAKERS" "CELTICS" (mk_datetime 2025 3 26 19 30 0 0)
    (Some 100) (Some 95) (Some (-9 # 2)%Q) (Some (6 # 1)%Q) None.

(** A row whose home score is in and whose away score is still the
    placeholder 0. *)
Definition half_scored : PredRow :=
  mk_pred_row "HEAT" "BULLS" (mk_datetime 2025 3 26 20 0 0 0)
    (Some 100) (Some 0) (Some (-9 # 2)%Q) (Some (6 # 1)%Q) None.

Definition session_of (rows : list PredRow) : Bets.Session :=
  Bets.mk_session rows rows [].

Definition tip_off : datetime := mk_datetime 2025 3 26 19 30 0 0.

(** The scraped row of the Lakers game at a given spread. *)
Definition lakers_odds (spread : Q) : OddsDict :=
  mk_odds_dict "LAKERS" "CELTICS" tip_off (VFloat spread) (VInt (-110))
    (VInt (-110)) (VInt (-200)) (VInt 180) noon.

(** An odds table that holds the Lakers game at -4.5, a schedule on which
    the game has id 7, and a session that checks the constraint on [add]. *)
Definition rescrape_session : LineScraper.Session :=
  LineScraper.mk_session
    [mk_odds_row (lakers_odds (-9 # 2)) (Some 7)]
    [mk_sched_row 7 "LAKERS" "CELTICS" tip_off]
    true.

(** The standard score of [x] under mean [loc] and scale [scale]. *)
Definition standard_score (loc scale x : Q) : Q := ((x - loc) / scale)%Q.

(** Nuggets at home against the Suns at 22:00: a point spread only. *)
Definition nuggets_suns : Event :=
  mk_event "Phoenix Suns @ Denver Nuggets" "GAMEEVENT"
    "/basketball/nba/phoenix-suns-denver-nuggets-202503262200"
    [mk_competitor "Nuggets" true; mk_competitor "Suns" false]
    [[point_spread]].

(** A game with three competitors. *)
Definition three_way : Event :=
  mk_event "Spurs @ Jazz" "GAMEEVENT"
    "/basketball/nba/spurs-jazz-202503262230"
    [mk_competitor "Jazz" true; mk_competitor "Spurs" false;
     mk_competitor "Kings" false]
    [[point_spread; moneyline "-150" "+130"]].

(** An entry of the feed that is not a game. *)
Definition futures : Event :=
  mk_event "NBA Championship Winner" "FUTURES" "/basketball/nba/futures" [] [].

(** A world late on the game day, after every tip-off of the fixtures. *)
Definition late_world (regular playoff : Payload) : World :=
  mk_world
    (fun url => if String.eqb url "regular" then regular
                else if String.eqb url "playoff" then playoff else [])
    (fun _ => mk_datetime 2025 3 26 23 45 0 0) "regular" "playoff".

(** A row graded earlier as a LOSS, and a row without scores. *)
Definition graded : PredRow :=
  mk_pred_row "KNICKS" "NETS" (mk_datetime 2025 3 25 19 0 0 0)
    (Some 90) (Some 99) (Some (-3 # 1)%Q) (Some (5 # 1)%Q) (Some LOSS).

Definition unscored : PredRow :=
  mk_pred_row "NUGGETS" "SUNS" (mk_datetime 2025 3 26 22 0 0 0)
    None None (Some (-2 # 1)%Q) (Some (1 # 1)%Q) None.

(** The canonical names of three franchises. *)
Definition three_teams : list string :=
  ["Los Angeles Lakers"; "Boston Celtics"; "Miami Heat"].

(** An odds table with the Lakers game at -4.5 and the Heat game at -2. *)
Definition heat_odds : OddsDict :=
  mk_odds_dict "HEAT" "BULLS" (mk_datetime 2025 3 26 20 0 0 0) (VFloat (-2 # 1))
    (VInt (-105)) (VInt (-115)) (VInt (-130)) (VInt 110) noon.

Definition two_game_session : LineScraper.Session :=
  LineScraper.mk_session
    [mk_odds_row (lakers_odds (-9 # 2)) (Some 7); mk_odds_row heat_odds (Some 8)]
    [mk_sched_row 7 "LAKERS" "CELTICS" tip_off;
     mk_sched_row 8 "HEAT" "BULLS" (mk_datetime 2025 3 26 20 0 0 0)]
    false.

(** The same teams in a game that tipped off at 9:00 the same day. *)
Definition morning_game : Event :=
  mk_event "Boston Celtics @ Los Angeles Lakers" "GAMEEVENT"
    "/basketball/nba/boston-celtics-los-angeles-lakers-202503260900"
    [mk_competitor "Lakers" true; mk_competitor "Celtics" false]
    [[point_spread; moneyline "-200" "+180"]].

(** The Lakers game with the away side listed first and four markets: a
    total, the moneyline, a first-half spread and the point spread. *)
Definition lakers_reordered : Event :=
  mk_event "Boston Celtics @ Los Angeles Lakers" "GAMEEVENT"
    "/basketball/nba/boston-celtics-los-angeles-lakers-202503261930"
    [mk_competitor "Celtics" false; mk_competitor "Lakers" true]
    [[mk_market "Total" "Match"
        [mk_outcome "O" (mk_price "-110" (Some "221.5"));
         mk_outcome "U" (mk_price "-110" (Some "221.5"))];
      moneyline "-200" "+180";
      mk_market "Point Spread" "1st Half"
        [mk_outcome "H" (mk_price "-115" (Some "-2.5"));
         mk_outcome "A" (mk_price "-105" (Some "+2.5"))];
      point_spread]].

End Fixtures.

(** ** Properties of the settlement engine *)

Import Py.

Section Comparisons.
Import Bets.

Lemma num_eq_iff (a b : Q) : num_eq a b = true <-> (a == b)%Q.
Proof.
  unfold num_eq. destruct (Qcompare_spec a b) as [H | H | H]; split; intro E;
    try reflexivity; try discriminate; try assumption.
  - rewrite E in H. exfalso. exact (Qlt_irrefl _ H).
  - rewrite E in H. exfalso. exact (Qlt_irrefl _ H).
Qed.

Lemma num_lt_iff (a b : Q) : num_lt a b = true <-> (a < b)%Q.
Proof.
  unfold num_lt. destruct (Qcompare_spec a b) as [H | H | H]; split; intro E;
    try reflexivity; try discriminate; try assumption.
  - rewrite H in E. exfalso. exact (Qlt_irrefl _ E).
  - exfalso. exact (Qlt_irrefl _ (Qlt_trans _ _ _ E H)).
Qed.

Lemma num_gt_iff (a b : Q) : num_gt a b = true <-> (b < a)%Q.
Proof.
  unfold num_gt. destruct (Qcompare_spec a b) as [H | H | H]; split; intro E;
    try reflexivity; try discriminate; try assumption.
  - rewrite H in E. exfalso. exact (Qlt_irrefl _ E).
  - exfalso. exact (Qlt_irrefl _ (Qlt_trans _ _ _ E H)).
Qed.

(** A comparison of booleans and propositions that the case analyses below
    share. *)
Lemma num_lt_false (a b : Q) : num_lt a b = false <-> ~ (a < b)%Q.
Proof.
  rewrite <- num_lt_iff. destruct (num_lt a b); split; intro H;
    try reflexivity; try discriminate; try (intro; discriminate).
  exfalso. apply H. reflexivity.
Qed.

Lemma num_gt_false (a b : Q) : num_gt a b = false <-> ~ (b < a)%Q.
Proof.
  rewrite <- num_gt_iff. destruct (num_gt a b); split; intro H;
    try reflexivity; try discriminate; try (intro; discriminate).
  exfalso. apply H. reflexivity.
Qed.

Lemma num_eq_false (a b : Q) : num_eq a b = false <-> ~ (a == b)%Q.
Proof.
  rewrite <- num_eq_iff. destruct (num_eq a b); split; intro H;
    try reflexivity; try discriminate; try (intro; discriminate).
  exfalso. apply H. reflexivity.
Qed.

End Comparisons.

Module Settlement.
Import Bets.

Lemma line_inverse_eq (l : Q) : (l * inject_Z (-1) == - l)%Q.
Proof. ring. Qed.

(** One row: [grade] succeeds and assigns what the rule says. *)
Lemma grade_settles (row : PredRow) (h a : Z) (l p : Q) :
  numeric row h a l p ->
  exists b, grade row = Ok (set_bet_result row b)
            /\ settles (inject_Z (h - a)) l p b.
Proof.
  intros (Hh & Ha & Hl & Hp). unfold grade, settles.
  rewrite Hh, Ha, Hl, Hp. cbn [operand rbind].
  set (m := inject_Z (h - a)). set (li := (l * inject_Z (-1))%Q).
  assert (Eli : (li == - l)%Q) by apply line_inverse_eq.
  destruct (num_eq m li) eqn:Eeq.
  - exists PUSH. split; [reflexivity |].
    apply num_eq_iff in Eeq. rewrite Eli in Eeq.
    split; [reflexivity | split; intros Hne; contradiction].
  - apply num_eq_false in Eeq. rewrite Eli in Eeq.
    destruct (num_lt m li) eqn:Elt; cbn [rbind].
    + destruct (num_lt p li) eqn:Eplt.
      * exists WIN. split; [reflexivity |].
        split; [intro; contradiction | split; [reflexivity |]].
        intros _ Hn. exfalso. apply Hn. left.
        apply num_lt_iff in Elt, Eplt. rewrite Eli in Elt, Eplt. split; assumption.
      * assert (Egt : num_gt m li = false).
        { apply num_gt_false. apply num_lt_iff in Elt. intro G.
          exact (Qlt_irrefl _ (Qlt_trans _ _ _ Elt G)). }
        rewrite Egt. cbn [rbind]. exists LOSS. split; [reflexivity |].
        split; [intro; contradiction | split; [| reflexivity]].
        intros _ [[_ Hp'] | [Hm' _]].
        -- apply num_lt_false in Eplt. rewrite Eli in Eplt. contradiction.
        -- apply num_gt_false in Egt. rewrite Eli in Egt. contradiction.
    + destruct (num_gt m li) eqn:Egt; cbn [rbind].
      * destruct (num_gt p li) eqn:Epgt.
        -- exists WIN. split; [reflexivity |].
           split; [intro; contradiction | split; [reflexivity |]].
           intros _ Hn. exfalso. apply Hn. right.
           apply num_gt_iff in Egt, Epgt. rewrite Eli in Egt, Epgt. split; assumption.
        -- exists LOSS. split; [reflexivity |].
           split; [intro; contradiction | split; [| reflexivity]].
           intros _ [[Hm' _] | [_ Hp']].
           ++ apply num_lt_false in Elt. rewrite Eli in Elt. contradiction.
           ++ apply num_gt_false in Epgt. rewrite Eli in Epgt. contradiction.
      * exists LOSS. split; [reflexivity |].
        split; [intro; contradiction | split; [| reflexivity]].
        intros _ [[Hm' _] | [Hm' _]].
        -- apply num_lt_false in Elt. rewrite Eli in Elt. contradiction.
        -- apply num_gt_false in Egt. rewrite Eli in Egt. contradiction.
Qed.

(** A margin equal to the negated line is a PUSH whatever the prediction
    holds, a NULL included: the prediction is not compared. *)
Lemma grade_push (row : PredRow) (h a : Z) (l : Q) :
  home_team_score row = Some h -> away_team_score row = Some a ->
  line row = Some l -> (inject_Z (h - a) == - l)%Q ->
  grade row = Ok (set_bet_result row PUSH).
Proof.
  intros Hh Ha Hl Heq. unfold grade. rewrite Hh, Ha, Hl. cbn [operand rbind].
  rewrite <- line_inverse_eq in Heq. apply num_eq_iff in Heq. rewrite Heq.
  reflexivity.
Qed.

End Settlement.

Module SettlementPass.
Import Bets Settlement.

Lemma numeric_set_bet_result (row : PredRow) (b : BetResult) h a l p :
  numeric (set_bet_result row b) h a l p <-> numeric row h a l p.
Proof. unfold numeric. destruct row; cbn. tauto. Qed.

Lemma set_bet_result_twice (row : PredRow) (b b' : BetResult) :
  set_bet_result (set_bet_result row b) b' = set_bet_result row b'.
Proof. destruct row; reflexivity. Qed.

(** The loop of [update_bet_results] over gradable objects: it does not
    raise, touches nothing but the objects it was given, and leaves each of
    them graded by the rule. *)
Lemma grade_loop (objs : list nat) :
  forall s : Session,
    (forall i, In i objs -> exists row, preds s !! i = Some row /\ gradable row) ->
    exists s',
      for_each_M grade_object objs tt s = (Ok tt, s')
      /\ committed s' = committed s /\ log s' = log s
      /\ (forall i, ~ In i objs -> preds s' !! i = preds s !! i)
      /\ (forall i row h a l p,
             In i objs -> preds s !! i = Some row -> numeric row h a l p ->
             exists b, preds s' !! i = Some (set_bet_result row b)
                       /\ settles (inject_Z (h - a)) l p b).
Proof.
  induction objs as [| i objs IH]; intros s Hall.
  - exists s. cbn. repeat split; try reflexivity. intros i row h a l p [].
  - destruct (Hall i (or_introl eq_refl)) as (row & Hrow & (h & a & l & p & Hnum)).
    destruct (grade_settles row h a l p Hnum) as (b & Hgrade & Hb).
    set (s1 := mk_session (<[i := set_bet_result row b]> (preds s)) (committed s) (log s)).
    assert (Hi : (i < length (preds s))%nat) by (eapply lookup_lt_Some; exact Hrow).
    assert (Hstep : grade_object tt i s = (Ok tt, s1)).
    { unfold grade_object. rewrite Hrow, Hgrade. reflexivity. }
    assert (Hall1 : forall j, In j objs ->
                      exists row', preds s1 !! j = Some row' /\ gradable row').
    { intros j Hj. destruct (Nat.eq_dec i j) as [<- | Hne].
      - exists (set_bet_result row b). split.
        + cbn. apply list_lookup_insert_eq. exact Hi.
        + exists h, a, l, p. apply numeric_set_bet_result. exact Hnum.
      - destruct (Hall j (or_intror Hj)) as (row' & Hrow' & Hg).
        exists row'. split; [| exact Hg].
        cbn. rewrite list_lookup_insert_ne by exact Hne. exact Hrow'. }
    destruct (IH s1 Hall1) as (s' & Hrun & Hc & Hl & Hframe & Hgraded).
    exists s'. split.
    { cbn [for_each_M]. unfold bind. rewrite Hstep. exact Hrun. }
    split; [exact Hc |]. split; [exact Hl |]. split.
    + intros j Hj. rewrite Hframe by (intro; apply Hj; right; assumption).
      cbn. apply list_lookup_insert_ne. intro E. apply Hj. left. exact E.
    + intros j rowj h' a' l' p' Hj Hrowj Hnumj.
      destruct (in_dec Nat.eq_dec j objs) as [Hin | Hout].
      * destruct (Nat.eq_dec i j) as [<- | Hne].
        -- assert (rowj = row) by congruence. subst rowj.
           destruct (Hgraded i (set_bet_result row b) h' a' l' p' Hin) as (b' & Hb' & Hs').
           ++ cbn. apply list_lookup_insert_eq. exact Hi.
           ++ apply numeric_set_bet_result. exact Hnumj.
           ++ exists b'. rewrite set_bet_result_twice in Hb'. split; assumption.
        -- apply (Hgraded j rowj h' a' l' p' Hin); [| exact Hnumj].
           cbn. rewrite list_lookup_insert_ne by exact Hne. exact Hrowj.
      * assert (j = i) by (destruct Hj as [E | Hj]; [symmetry; exact E | contradiction]).
        subst j. assert (rowj = row) by congruence. subst rowj.
        destruct (grade_settles row h' a' l' p' Hnumj) as (b2 & Hgrade2 & Hb2).
        exists b2. split; [| exact Hb2].
        rewrite Hframe by exact Hout. cbn.
        rewrite list_lookup_insert_eq by exact Hi.
        rewrite Hgrade in Hgrade2. injection Hgrade2 as E. rewrite E. reflexivity.
Qed.

Lemma same_inputs_set_bet_result (row : PredRow) (b : BetResult) :
  bet_result (set_bet_result row b) = Some b
  /\ same_inputs row (set_bet_result row b).
Proof. destruct row. repeat split. Qed.

(** C1. For every list of queried prediction objects whose scores, line and
    prediction are numbers, [update_bet_results] returns normally and leaves
    each of them with its field [bet_result] set as the settlement rule says:
    PUSH when the score margin equals the negated line, whatever the
    prediction; otherwise WIN when margin and prediction are both strictly
    below or both strictly above the negated line; LOSS in every other case.
    The other fields of the object are as they were. *)
Theorem update_bet_results_settles (s : Session) (objs : list nat) :
  (forall i, In i objs -> exists row, preds s !! i = Some row /\ gradable row) ->
  exists s',
    update_bet_results objs s = (Ok objs, s')
    /\ forall i row h a l p,
         In i objs -> preds s !! i = Some row -> numeric row h a l p ->
         exists b row',
           preds s' !! i = Some row'
           /\ bet_result row' = Some b
           /\ settles (inject_Z (h - a)) l p b
           /\ same_inputs row row'.
Proof.
  intro Hall.
  destruct (grade_loop objs s Hall) as (s' & Hrun & _ & _ & _ & Hgraded).
  exists s'. split.
  - unfold update_bet_results, bind. rewrite Hrun. reflexivity.
  - intros i row h a l p Hin Hrow Hnum.
    destruct (Hgraded i row h a l p Hin Hrow Hnum) as (b & Hb & Hsettles).
    exists b, (set_bet_result row b).
    destruct (same_inputs_set_bet_result row b) as [Hres Hsame].
    split; [exact Hb |]. split; [exact Hres |].
    split; [exact Hsettles | exact Hsame].
Qed.

End SettlementPass.

Module SettlementExamples.
Import Bets Settlement SettlementPass Fixtures.

(** The finished game of the fixtures (home 100, away 95, line -4.5,
    prediction 6.0) comes back with [bet_result] "WIN": margin 5 and
    prediction 6 are both above 4.5. *)
Lemma update_bet_results_settles_witness :
  exists s',
    update_bet_results [0%nat] (session_of [finished]) = (Ok [0%nat], s')
    /\ preds s' !! 0%nat
       = Some (mk_pred_row "LAKERS" "CELTICS" (mk_datetime 2025 3 26 19 30 0 0)
                 (Some 100) (Some 95) (Some (-9 # 2)%Q) (Some (6 # 1)%Q)
                 (Some WIN)).
Proof.
  destruct (update_bet_results_settles (session_of [finished]) [0%nat])
    as (s' & Hrun & Hgraded).
  - intros i [<- | []]. exists finished. split; [reflexivity |].
    exists 100, 95, (-9 # 2)%Q, (6 # 1)%Q. repeat split.
  - exists s'. split; [exact Hrun |].
    destruct (Hgraded 0%nat finished 100 95 (-9 # 2)%Q (6 # 1)%Q)
      as (b & row' & Hrow' & Hb & (_ & Hwin & _) & Hsame).
    + left. reflexivity.
    + reflexivity.
    + repeat split.
    + assert (Eb : b = WIN).
      { apply Hwin.
        - intro E. unfold Qeq in E. cbn in E. discriminate E.
        - right. split; reflexivity. }
      subst b. rewrite Hrow'. f_equal.
      destruct Hsame as (H1 & H2 & H3 & H4 & H5 & H6 & H7).
      destruct row'. cbn in *. subst. reflexivity.
Defined.

(** C2, at a row that the settlement pass should leave alone. The row
    [half_scored] has a home score of 100 and an away score that is still 0,
    and no [bet_result]. The filter of [update_prediction_table] looks at
    [bet_result] and at the home score only, so the row is handed to
    [update_bet_results] and comes back graded (WIN, from a margin of 100). *)
Theorem update_prediction_table_grades_half_scored :
  away_team_score half_scored = Some 0
  /\ bet_result half_scored = None
  /\ exists s',
       update_prediction_table (session_of [half_scored]) = (Ok tt, s')
       /\ preds s' !! 0%nat = Some (set_bet_result half_scored WIN).
Proof.
  split; [reflexivity |]. split; [reflexivity |].
  eexists. split; vm_compute; reflexivity.
Qed.

(** The same pass on a row whose away score is NULL: the subtraction
    raises, and no row is graded. *)
Lemma update_prediction_table_null_away :
  let row := mk_pred_row "HEAT" "BULLS" (mk_datetime 2025 3 26 20 0 0 0)
               (Some 100) None (Some (-9 # 2)%Q) (Some (6 # 1)%Q) None in
  update_prediction_table (session_of [row]) = (Raise TypeError, session_of [row]).
Proof. vm_compute. reflexivity. Qed.

End SettlementExamples.

(** ** Properties of the outcome probability calculator *)

Module Probability.
Import Bets.

(** C3. With [line_prediction = -1 * line], [line_probability] returns the
    CDF at [line_prediction] under the normal distribution with mean
    [prediction] and scale [std], tagged "cdf", when the prediction is above
    [line_prediction]; the SF, tagged "sf", when it is below; and the bare
    number 0.5 when the two are equal. This holds for every [std] and every
    pair of distribution functions. *)
Theorem line_probability_cases (norm_cdf norm_sf : Q -> Q -> Q -> Q)
    (prediction line std : Q) :
  let line_prediction := (inject_Z (-1) * line)%Q in
  ((line_prediction < prediction)%Q ->
     line_probability norm_cdf norm_sf prediction line std
     = Tagged (norm_cdf prediction std line_prediction) "cdf")
  /\ ((prediction < line_prediction)%Q ->
        line_probability norm_cdf norm_sf prediction line std
        = Tagged (norm_sf prediction std line_prediction) "sf")
  /\ ((prediction == line_prediction)%Q ->
        line_probability norm_cdf norm_sf prediction line std = Bare (1 # 2)).
Proof.
  intro lp. unfold line_probability. fold lp.
  split; [| split]; intro H.
  - apply num_gt_iff in H. rewrite H. reflexivity.
  - assert (G : num_gt prediction lp = false).
    { apply num_gt_false. intro G. exact (Qlt_irrefl _ (Qlt_trans _ _ _ H G)). }
    apply num_lt_iff in H. rewrite G, H. reflexivity.
  - assert (G : num_gt prediction lp = false).
    { apply num_gt_false. intro G. rewrite H in G. exact (Qlt_irrefl _ G). }
    assert (L : num_lt prediction lp = false).
    { apply num_lt_false. intro L. rewrite H in L. exact (Qlt_irrefl _ L). }
    apply num_eq_iff in H. rewrite G, L, H. reflexivity.
Qed.

(** The negated line of the model is the negated line of the description. *)
Lemma line_prediction_is_negated_line (line : Q) :
  (inject_Z (-1) * line == - line)%Q.
Proof. ring. Qed.

(** [line_probability] always reaches one of its three [return]s. *)
Lemma line_probability_returns (norm_cdf norm_sf : Q -> Q -> Q -> Q)
    (prediction line std : Q) :
  line_probability norm_cdf norm_sf prediction line std <> NoValue.
Proof.
  unfold line_probability.
  set (lp := (inject_Z (-1) * line)%Q).
  unfold num_gt, num_lt, num_eq.
  destruct (Qcompare prediction lp); discriminate.
Qed.

End Probability.

(** ** Properties of the odds parser *)

Module Parsers.
Import LineScraper Fixtures.

(** More than two competitors are refused. *)
Lemma parse_teams_too_many (competitors : list Competitor) :
  (2 < length competitors)%nat ->
  parse_teams competitors = Raise (Exception "Unexpected objects in competitors").
Proof.
  intro H. unfold parse_teams.
  destruct (Nat.ltb_spec 2 (length competitors)) as [_ | G]; [reflexivity | lia].
Qed.

(** One home and one away competitor, in either order, with a home name
    that is not empty: the two names come back in upper case. *)
Lemma parse_teams_home_away (h a : string) :
  h <> "" ->
  parse_teams [mk_competitor h true; mk_competitor a false] = Ok (upper h, upper a)
  /\ parse_teams [mk_competitor a false; mk_competitor h true] = Ok (upper h, upper a).
Proof.
  intro Hh. unfold parse_teams. cbn.
  destruct (String.eqb_spec h "") as [E | _]; [contradiction |].
  split; reflexivity.
Qed.

(** C5, at the lists from which no name can be taken: the empty list, and a
    home and an away competitor whose names are both empty. [parse_teams]
    does not raise; it returns two empty names. The test before its [return]
    reads [not home_team == "" or away_team == ""], in which [not] applies to
    the first comparison only, so the [raise] below it is reached only when
    the home name is empty and the away name is not. *)
Theorem parse_teams_accepts_missing_names :
  parse_teams [] = Ok ("", "")
  /\ parse_teams [mk_competitor "" true; mk_competitor "" false] = Ok ("", "")
  /\ parse_teams [mk_competitor "Celtics" false]
     = Raise (Exception "Competitors was not properly parsed. Missing data.").
Proof. repeat split. Qed.

(** "EVEN" is read as 100, on either side. *)
Lemma moneyline_even (acc : value * value) (side : string) (h : option string) :
  moneyline_step acc (mk_outcome side (mk_price "EVEN" h))
  = if String.eqb side "H" then Ok (VInt 100, snd acc)
    else if String.eqb side "A" then Ok (fst acc, VInt 100)
    else Ok acc.
Proof.
  destruct acc as [hm am]. unfold moneyline_step. cbn.
  destruct (String.eqb side "H"); [reflexivity |].
  destruct (String.eqb side "A"); reflexivity.
Qed.

(** Bets other than the moneyline leave the flag [money_lines] alone. *)
Lemma bets_without_moneyline (bets : list Market) :
  Forall (fun bet => m_description bet <> "Moneyline") bets ->
  forall (l : Locals) (flag : bool) (l' : Locals) (flag' : bool),
    for_each bet_step bets (l, flag) = Ok (l', flag') -> flag' = flag.
Proof.
  induction 1 as [| bet bets Hbet _ IH]; intros l flag l' flag' Hrun.
  - cbn in Hrun. congruence.
  - cbn [for_each] in Hrun. unfold bet_step at 1 in Hrun.
    destruct (String.eqb_spec (m_description bet) "Moneyline") as [E | _];
      [contradiction |].
    destruct (String.eqb (m_description bet) "Point Spread").
    + destruct (parse_spread bet) as [[[sp hp] ap] | e]; cbn in Hrun;
        [| discriminate].
      eapply IH. exact Hrun.
    + cbn in Hrun. eapply IH. exact Hrun.
Qed.

(** A moneyline that prices the home side only: the away price comes back
    empty, and becomes [None] in the record. *)
Lemma parse_moneyline_home_only (price : string) (z : Z) :
  py_int price = Ok z -> price <> "EVEN" ->
  parse_moneyline (mk_market "Moneyline" "Match" [mk_outcome "H" (mk_price price None)])
  = Ok (VInt z, VStr "")
  /\ blank_to_None (VStr "") = VNone.
Proof.
  intros Hz Hne. split; [| reflexivity].
  unfold parse_moneyline. cbn. unfold moneyline_step. cbn.
  destruct (String.eqb_spec price "EVEN") as [E | _]; [contradiction |].
  rewrite Hz. reflexivity.
Qed.

(** C6, at a moneyline that prices the away side only. [parse_moneyline]
    raises instead of returning an empty home price, and with it the whole of
    [odds_for_today]: no record is produced for the game, nor for any other
    game of the feed. Its test reads [not home_moneyline == "" or
    away_moneyline == ""], so an empty home price next to a set away price is
    the one combination it refuses, although [odds_for_today] is written to
    turn an empty [home_moneyline] into [None]. *)
Theorem parse_moneyline_rejects_missing_home :
  parse_moneyline (mk_market "Moneyline" "Match" [mk_outcome "A" (mk_price "+180" None)])
  = Raise (Exception "Moneyline was not properly parsed. Missing data.")
  /\ fst (odds_for_today (world [mk_group [lakers_celtics; knicks_nets]] []) start)
     = Raise (Exception "Moneyline was not properly parsed. Missing data.").
Proof. split; vm_compute; reflexivity. Qed.

(** An empty price text is not a number: [int("")] raises. *)
Lemma parse_moneyline_empty_price :
  parse_moneyline (moneyline "" "+180") = Raise ValueError.
Proof. vm_compute. reflexivity. Qed.

(** C4, at feeds with a game that has no point spread. When it is the first
    game to be processed, building its row reads the local [spread] before any
    assignment and [odds_for_today] raises. When a game with a spread came
    before it, its row repeats that game's spread and spread prices: the
    locals are reset for the moneyline (through [money_lines]) and not for the
    spread. *)
Theorem odds_for_today_missing_spread :
  fst (odds_for_today (world [mk_group [heat_bulls]] []) start)
  = Raise (UnboundLocalError "spread")
  /\ exists lines,
       fst (odds_for_today (world [mk_group [lakers_celtics; heat_bulls]] []) start)
       = Ok (Some lines)
       /\ In ("home_team", [VStr "LAKERS"; VStr "HEAT"]) lines
       /\ In ("spread", [VFloat (-9 # 2); VFloat (-9 # 2)]) lines
       /\ In ("home_spread_price", [VInt (-110); VInt (-110)]) lines
       /\ In ("away_spread_price", [VInt (-110); VInt (-110)]) lines.
Proof.
  split; [vm_compute; reflexivity |].
  eexists. split; [vm_compute; reflexivity |].
  cbn. repeat split; tauto.
Qed.

End Parsers.

(** ** The feeds that are asked, and "no data" *)

Module Feeds.
Import LineScraper Fixtures.







(** One request: the payload, [None] when it is empty, and the URL on the
    trace. *)
Lemma bovada_json_request_run (w : World) (url : string) (t : Trace) :
  bovada_json_request w url t
  = (Ok (match http_get w url with [] => None | payload => Some payload end),
     mk_trace (requested t ++ [url]) (clock_reads t)).
Proof.
  unfold bovada_json_request, bind, requests_get_json, ret.
  destruct (http_get w url); reflexivity.
Qed.


(** [odds_for_today], unfolded up to the payload it settles on. *)
Lemma odds_for_today_run (w : World) (t : Trace) :
  odds_for_today w t
  = match http_get w (regularURL w) with
    | [] =>
        read_payload w (clock w (clock_reads t))
          (match http_get w (playoffURL w) with
           | [] => None
           | payload => Some payload
           end)
          (mk_trace (requested t ++ [regularURL w; playoffURL w])
                    (S (clock_reads t)))
    | payload =>
        read_payload w (clock w (clock_reads t)) (Some payload)
          (mk_trace (requested t ++ [regularURL w]) (S (clock_reads t)))
    end.
Proof.
  unfold odds_for_today.
  unfold bind at 1. cbn [now].
  unfold bind at 1. rewrite bovada_json_request_run. cbn [requested clock_reads].
  destruct (http_get w (regularURL w)) as [| g1 r1].
  - unfold bind at 1. rewrite bovada_json_request_run. cbn [requested clock_reads].
    rewrite <- app_assoc. reflexivity.
  - unfold bind at 1. reflexivity.
Qed.







End Feeds.

(** ** The shape of the dictionary of columns *)

Module Columns.
Import LineScraper Fixtures Feeds.

Lemma rectangular_empty : rectangular 0 empty_lines.
Proof. split; [reflexivity |]. repeat constructor. Qed.

(** Appending a row keeps the keys and lengthens every column by one. *)
Lemma append_row_shape (game_lines : list value) (lines : Lines) :
  forall (i : nat) (lines' : Lines) (n : nat),
    append_row lines game_lines i = Ok lines' ->
    Forall (fun column => length (snd column) = n) lines ->
    map fst lines' = map fst lines
    /\ Forall (fun column => length (snd column) = S n) lines'.
Proof.
  induction lines as [| [key column] rest IH]; intros i lines' n Hrun Hlen.
  - cbn in Hrun. injection Hrun as <-. split; [reflexivity | constructor].
  - cbn [append_row] in Hrun.
    destruct (nth_error game_lines i) as [v |]; [| discriminate].
    destruct (append_row rest game_lines (S i)) as [rest' |] eqn:Erest;
      cbn in Hrun; [| discriminate].
    injection Hrun as <-.
    inversion Hlen as [| ? ? Hcol Hrest]; subst.
    destruct (IH (S i) rest' (length column) Erest Hrest) as [Hkeys Hlens].
    split.
    + cbn. rewrite Hkeys. reflexivity.
    + constructor; [| exact Hlens].
      cbn. rewrite length_app. cbn. lia.
Qed.

(** One game: either it is skipped and the dictionary is untouched, or
    exactly one value is appended to every column. *)
Lemma game_step_shape (w : World) (scrape_time : datetime) (l : Locals)
    (lines : Lines) (game : Event) (t : Trace) (l' : Locals) (lines' : Lines)
    (t' : Trace) (n : nat) :
  game_step w scrape_time (l, lines) game t = (Ok (l', lines'), t') ->
  rectangular n lines ->
  lines' = lines \/ rectangular (S n) lines'.
Proof.
  intros Hrun [Hkeys Hlens]. unfold game_step, bind, lift, now, ret in Hrun.
  repeat match type of Hrun with
         | (let (_, _) := (?r, _) in _) = _ => cbv iota beta in Hrun
         | context [match ?r with Ok _ => _ | Raise _ => _ end] =>
             lazymatch r with
             | append_row _ _ _ => fail
             | _ => destruct r; try discriminate Hrun
             end
         | context [if ?b then _ else _] =>
             destruct b; try discriminate Hrun
         end;
    try (injection Hrun as _ <- _; left; reflexivity).
  all: destruct (append_row lines _ 0) as [lines1 |] eqn:Eapp;
    [| discriminate Hrun];
    injection Hrun as _ <- _;
    right; destruct (append_row_shape _ _ _ _ _ Eapp Hlens) as [K L];
    split; [rewrite K; exact Hkeys | exact L].
Qed.

(** The loop over the games keeps the dictionary rectangular. *)
Lemma games_loop_shape (w : World) (scrape_time : datetime) (games : list Event) :
  forall (l : Locals) (lines : Lines) (t : Trace) (l' : Locals) (lines' : Lines)
         (t' : Trace) (n : nat),
    for_each_M (game_step w scrape_time) games (l, lines) t = (Ok (l', lines'), t') ->
    rectangular n lines ->
    exists n', rectangular n' lines' /\ (n <= n' <= n + length games)%nat.
Proof.
  induction games as [| game games IH]; intros l lines t l' lines' t' n Hrun Hrect.
  - cbn in Hrun. injection Hrun as _ <- _. exists n. split; [exact Hrect | cbn; lia].
  - cbn [for_each_M] in Hrun. unfold bind at 1 in Hrun.
    destruct (game_step w scrape_time (l, lines) game t) as [[[l1 lines1] | e] t1] eqn:Estep;
      [| discriminate Hrun].
    destruct (game_step_shape _ _ _ _ _ _ _ _ _ _ Estep Hrect) as [-> | Hrect1].
    + destruct (IH _ _ _ _ _ _ _ Hrun Hrect) as (n' & Hn' & Hle).
      exists n'. split; [exact Hn' | cbn; lia].
    + destruct (IH _ _ _ _ _ _ _ Hrun Hrect1) as (n' & Hn' & Hle).
      exists n'. split; [exact Hn' | cbn; lia].
Qed.

Lemma read_payload_shape (w : World) (scrape_time : datetime)
    (response : option Payload) (t : Trace) (lines : Lines) (t' : Trace) :
  read_payload w scrape_time response t = (Ok (Some lines), t') ->
  exists n, rectangular n lines.
Proof.
  destruct response as [response |]; cbn [read_payload]; [| discriminate].
  unfold bind at 1, lift.
  destruct response as [| group rest]; [discriminate |].
  cbn zeta. destruct (List.filter is_game (g_events group)) as [| g gs] eqn:Eg;
    [discriminate |].
  unfold bind, ret.
  destruct (for_each_M _ _ _ t) as [[[l' lines'] | e] t1] eqn:Eloop;
    [| discriminate].
  intro H. injection H as <- _.
  destruct (games_loop_shape _ _ _ _ _ _ _ _ _ _ Eloop rectangular_empty)
    as (n' & Hrect & _).
  exists n'. exact Hrect.
Qed.

End Columns.

(** ** Re-scraping a game: [update_odds_table] *)

Module OddsTable.
Import LineScraper.

Lemma delete_all_cons_other (objs : list OddsRow) :
  forall (x : OddsRow) (tbl : list OddsRow),
    (forall y, In y objs -> y <> x) ->
    delete_all objs (x :: tbl) = x :: delete_all objs tbl.
Proof.
  induction objs as [| y objs IH]; intros x tbl Hne; [reflexivity |].
  cbn [delete_all fold_left remove_first].
  rewrite bool_decide_eq_false_2 by (apply Hne; left; reflexivity).
  apply IH. intros z Hz. apply Hne. right. exact Hz.
Qed.

(** Deleting every row that a query by identity returned leaves the rows of
    the other identities, in order. *)
Lemma delete_all_with_identity (k : Identity) (tbl : list OddsRow) :
  delete_all (with_identity k tbl) tbl = without_identity k tbl.
Proof.
  induction tbl as [| x tbl IH]; [reflexivity |].
  unfold with_identity, without_identity in *. cbn [List.filter].
  destruct (bool_decide (identity x = k)) eqn:E; cbn [negb].
  - cbn [delete_all fold_left remove_first].
    rewrite bool_decide_eq_true_2 by reflexivity. exact IH.
  - rewrite delete_all_cons_other; [rewrite IH; reflexivity |].
    intros y Hy ->. apply filter_In in Hy. destruct Hy as [_ Hy].
    rewrite E in Hy. discriminate Hy.
Qed.

Lemma delete_loop (objs : list OddsRow) :
  forall s : Session,
    for_each_M (fun (_ : unit) exist_row => session_delete exist_row) objs tt s
    = (Ok tt, mk_session (delete_all objs (odds s)) (sched s) (eager s)).
Proof.
  induction objs as [| obj objs IH]; intro s.
  - destruct s; reflexivity.
  - cbn [for_each_M]. unfold bind at 1. cbn [session_delete].
    rewrite IH. reflexivity.
Qed.

(** One row of the batch whose game is on the schedule: the rows with its
    identity are gone from the table, and its object, with the game's id, is
    appended to [row_objects]. *)
Lemma odds_row_step_run (s : Session) (row_objects : list OddsRow)
    (row : OddsDict) (g : SchedRow) :
  scheduled (sched s) row g ->
  odds_row_step row_objects row s
  = (Ok (row_objects ++ [mk_odds_row row (Some (s_id g))]),
     mk_session (without_identity (dict_identity row) (odds s)) (sched s) (eager s)).
Proof.
  intro Hsched. unfold scheduled in Hsched.
  unfold odds_row_step. unfold bind at 1. cbn [query_odds].
  fold (with_identity (dict_identity row) (odds s)).
  assert (Hdel :
    (if (0 <? length (with_identity (dict_identity row) (odds s)))%nat
     then for_each_M (fun (_ : unit) exist_row => session_delete exist_row)
            (with_identity (dict_identity row) (odds s)) tt
     else ret tt) s
    = (Ok tt, mk_session (without_identity (dict_identity row) (odds s))
                         (sched s) (eager s))).
  { rewrite <- delete_all_with_identity.
    destruct (with_identity (dict_identity row) (odds s)) as [| x xs].
    - destruct s; reflexivity.
    - cbn [length Nat.ltb Nat.leb]. apply delete_loop. }
  unfold bind at 1. rewrite Hdel.
  unfold bind at 1. unfold query_sched. cbn [sched].
  change (identity (mk_odds_row row None)) with (dict_identity row).
  rewrite Hsched. reflexivity.
Qed.

(** The loop over the batch. *)
Lemma rows_loop (rows : list OddsDict) :
  forall (s : Session) (acc : list OddsRow),
    (forall row, In row rows -> exists g, scheduled (sched s) row g) ->
    exists objs,
      for_each_M odds_row_step rows acc s
      = (Ok (acc ++ objs), mk_session (purge rows (odds s)) (sched s) (eager s))
      /\ Forall2 (built (sched s)) rows objs.
Proof.
  induction rows as [| row rows IH]; intros s acc Hall.
  - exists []. split; [| constructor]. cbn. rewrite app_nil_r. destruct s; reflexivity.
  - destruct (Hall row (or_introl eq_refl)) as (g & Hg).
    set (s1 := mk_session (without_identity (dict_identity row) (odds s))
                          (sched s) (eager s)).
    destruct (IH s1 (acc ++ [mk_odds_row row (Some (s_id g))])) as (objs & Hrun & Hbuilt).
    { intros r Hr. apply Hall. right. exact Hr. }
    exists (mk_odds_row row (Some (s_id g)) :: objs). split.
    + cbn [for_each_M]. unfold bind at 1.
      rewrite (odds_row_step_run s acc row g Hg). fold s1. rewrite Hrun.
      rewrite <- app_assoc. reflexivity.
    + constructor; [| exact Hbuilt]. exists g. split; [exact Hg | reflexivity].
Qed.

Lemma insert_all_Some (objs : list OddsRow) :
  forall tbl tbl', insert_all tbl objs = Some tbl' -> tbl' = tbl ++ objs.
Proof.
  induction objs as [| obj objs IH]; intros tbl tbl' H; cbn in H.
  - injection H as <-. rewrite app_nil_r. reflexivity.
  - destruct (conflicts tbl obj); [discriminate |].
    rewrite (IH _ _ H), <- app_assoc. reflexivity.
Qed.

(** With the constraint checked on every [add], the loop of the handler
    adds the objects that meet no row of their identity and passes over the
    others. *)
Lemma add_loop (objs : list OddsRow) :
  forall s : Session,
    eager s = true ->
    for_each_M
      (fun (_ : unit) row => try_except_IntegrityError (session_add row) (ret tt))
      objs tt s
    = (Ok tt, mk_session (fold_left add_or_skip objs (odds s)) (sched s) (eager s)).
Proof.
  induction objs as [| obj objs IH]; intros s He.
  - destruct s; reflexivity.
  - cbn [for_each_M fold_left]. unfold bind at 1.
    unfold try_except_IntegrityError, session_add, session_add_all, add_or_skip.
    rewrite He. cbn [insert_all].
    destruct (conflicts (odds s) obj) eqn:Ec.
    + unfold ret. rewrite IH by exact He. rewrite He. reflexivity.
    + rewrite IH by reflexivity. reflexivity.
Qed.

(** [update_odds_table] on a batch whose games are all on the schedule. *)
Lemma update_odds_table_run (s : Session) (rows : list OddsDict) :
  rows <> [] ->
  (forall row, In row rows -> exists g, scheduled (sched s) row g) ->
  exists objs,
    Forall2 (built (sched s)) rows objs
    /\ update_odds_table rows s
       = (Ok tt, mk_session (added (eager s) (purge rows (odds s)) objs)
                            (sched s) (eager s)).
Proof.
  intros Hne Hall. destruct (rows_loop rows s [] Hall) as (objs & Hrun & Hbuilt).
  exists objs. split; [exact Hbuilt |].
  unfold update_odds_table.
  destruct rows as [| row rows']; [contradiction |].
  cbn [length Nat.eqb]. unfold bind at 1. rewrite Hrun. cbn [app].
  unfold try_except_IntegrityError, session_add_all, added.
  cbn [eager odds sched].
  destruct (eager s) eqn:He; [| reflexivity].
  destruct (insert_all (purge (row :: rows') (odds s)) objs); [reflexivity |].
  rewrite add_loop by reflexivity. reflexivity.
Qed.

(** *** Counting the rows of one identity *)

Lemma with_identity_cons (k : Identity) (x : OddsRow) (tbl : list OddsRow) :
  with_identity k (x :: tbl)
  = if bool_decide (identity x = k) then x :: with_identity k tbl
    else with_identity k tbl.
Proof. reflexivity. Qed.

Lemma with_identity_app (k : Identity) (a b : list OddsRow) :
  with_identity k (a ++ b) = with_identity k a ++ with_identity k b.
Proof. apply List.filter_app. Qed.

Lemma with_identity_without (k k' : Identity) (tbl : list OddsRow) :
  with_identity k (without_identity k' tbl)
  = if decide (k = k') then [] else with_identity k tbl.
Proof.
  unfold with_identity, without_identity.
  induction tbl as [| x tbl IH]; [destruct (decide (k = k')); reflexivity |].
  cbn [List.filter].
  destruct (decide (identity x = k')) as [E' | N'].
  - rewrite (bool_decide_eq_true_2 _ E'). cbn [negb]. rewrite IH.
    destruct (decide (k = k')) as [-> | N]; [reflexivity |].
    rewrite bool_decide_eq_false_2 by congruence. reflexivity.
  - rewrite (bool_decide_eq_false_2 _ N'). cbn [negb List.filter]. rewrite IH.
    destruct (decide (k = k')) as [-> | N].
    + rewrite (bool_decide_eq_false_2 _ N'). reflexivity.
    + reflexivity.
Qed.

Lemma purge_keeps_none (k : Identity) (rows : list OddsDict) :
  forall tbl, with_identity k tbl = [] -> with_identity k (purge rows tbl) = [].
Proof.
  induction rows as [| row rows IH]; intros tbl H; [exact H |].
  cbn [purge fold_left]. apply IH. rewrite with_identity_without.
  destruct (decide (k = dict_identity row)); [reflexivity | exact H].
Qed.

(** After the loop no row of the table has an identity of the batch. *)
Lemma purge_clears (k : Identity) (rows : list OddsDict) :
  forall tbl, In k (map dict_identity rows) -> with_identity k (purge rows tbl) = [].
Proof.
  induction rows as [| row rows IH]; intros tbl Hin; [destruct Hin |].
  cbn [purge fold_left]. destruct (decide (k = dict_identity row)) as [E | N].
  - apply purge_keeps_none. rewrite with_identity_without.
    destruct (decide (k = dict_identity row)); [reflexivity | contradiction].
  - apply IH. destruct Hin as [E | Hin]; [congruence | exact Hin].
Qed.

(** The rows of every other identity stay as they were. *)
Lemma purge_frame (k : Identity) (rows : list OddsDict) :
  forall tbl, ~ In k (map dict_identity rows) ->
              with_identity k (purge rows tbl) = with_identity k tbl.
Proof.
  induction rows as [| row rows IH]; intros tbl Hout; [reflexivity |].
  cbn [purge fold_left]. rewrite IH by (intro; apply Hout; right; assumption).
  rewrite with_identity_without.
  destruct (decide (k = dict_identity row)) as [E | N]; [| reflexivity].
  exfalso. apply Hout. left. symmetry. exact E.
Qed.

Lemma conflicts_with_identity (tbl : list OddsRow) (obj : OddsRow) :
  conflicts tbl obj = false <-> with_identity (identity obj) tbl = [].
Proof.
  unfold conflicts, with_identity. induction tbl as [| x tbl IH]; [tauto |].
  cbn [existsb List.filter].
  destruct (bool_decide (identity x = identity obj)); cbn [orb].
  - split; discriminate.
  - exact IH.
Qed.

(** Adding with skipping, seen through one identity: a table that has rows
    of it keeps them, and a table that has none gains the first object of
    that identity. *)
Lemma with_identity_add_or_skip (k : Identity) (objs : list OddsRow) :
  forall tbl,
    with_identity k (fold_left add_or_skip objs tbl)
    = match with_identity k tbl with
      | [] => take 1 (with_identity k objs)
      | held => held
      end.
Proof.
  induction objs as [| obj objs IH]; intro tbl.
  - cbn [fold_left]. destruct (with_identity k tbl); reflexivity.
  - cbn [fold_left]. rewrite IH. unfold add_or_skip.
    rewrite (with_identity_cons k obj objs).
    destruct (conflicts tbl obj) eqn:Ec.
    + destruct (decide (identity obj = k)) as [E | N].
      * destruct (with_identity k tbl) eqn:Ek; [| reflexivity].
        exfalso. subst k. apply conflicts_with_identity in Ek. congruence.
      * rewrite (bool_decide_eq_false_2 _ N). reflexivity.
    + rewrite with_identity_app, (with_identity_cons k obj []).
      destruct (decide (identity obj = k)) as [E | N].
      * rewrite (bool_decide_eq_true_2 _ E). subst k.
        apply conflicts_with_identity in Ec. rewrite Ec. reflexivity.
      * rewrite (bool_decide_eq_false_2 _ N). cbn [with_identity List.filter].
        rewrite app_nil_r. destruct (with_identity k tbl); reflexivity.
Qed.

(** The objects built for the rows of one identity are the objects of that
    identity. *)
Lemma built_with_identity (schedule : list SchedRow) (k : Identity)
    (rows : list OddsDict) (objs : list OddsRow) :
  Forall2 (built schedule) rows objs ->
  Forall2 (built schedule)
    (List.filter (fun r => bool_decide (dict_identity r = k)) rows)
    (with_identity k objs).
Proof.
  induction 1 as [| row obj rows objs (g & Hg & ->) _ IH]; [constructor |].
  rewrite with_identity_cons. cbn [List.filter].
  change (identity (mk_odds_row row (Some (s_id g)))) with (dict_identity row).
  destruct (bool_decide (dict_identity row = k)); [| exact IH].
  constructor; [| exact IH]. exists g. split; [exact Hg | reflexivity].
Qed.

(** The table that [update_odds_table] leaves, seen through an identity that
    the batch holds once and the purged table does not hold. *)
Lemma added_with_identity (check : bool) (k : Identity)
    (tbl objs : list OddsRow) (obj : OddsRow) :
  with_identity k tbl = [] -> with_identity k objs = [obj] ->
  with_identity k (added check tbl objs) = [obj].
Proof.
  intros Htbl Hobjs. unfold added. destruct check.
  - destruct (insert_all tbl objs) as [tbl' |] eqn:Ei.
    + rewrite (insert_all_Some _ _ _ Ei), with_identity_app, Htbl, Hobjs. reflexivity.
    + rewrite with_identity_add_or_skip, Htbl, Hobjs. reflexivity.
  - rewrite with_identity_app, Htbl, Hobjs. reflexivity.
Qed.

(** C9, as the code has it. Take a batch in which [row] is the only row of
    its Game Identity, and a schedule that holds exactly one game for every
    row of the batch.
    [update_odds_table] returns normally, and afterwards the odds table holds
    exactly one row of that identity: the new one, with the id of its game.
    Every row that had the identity before is deleted. *)
Theorem update_odds_table_keeps_latest (s : Session) (rows : list OddsDict)
    (row : OddsDict) :
  (forall r, In r rows -> exists g, scheduled (sched s) r g) ->
  List.filter (fun r => bool_decide (dict_identity r = dict_identity row)) rows
  = [row] ->
  exists s' g,
    update_odds_table rows s = (Ok tt, s')
    /\ scheduled (sched s) row g
    /\ with_identity (dict_identity row) (odds s')
       = [mk_odds_row row (Some (s_id g))].
Proof.
  intros Hall Honce.
  assert (Hin : In row rows).
  { assert (H : In row [row]) by (left; reflexivity).
    rewrite <- Honce in H. apply filter_In in H. tauto. }
  assert (Hne : rows <> []) by (intros ->; destruct Hin).
  destruct (update_odds_table_run s rows Hne Hall) as (objs & Hbuilt & Hrun).
  pose proof (built_with_identity _ (dict_identity row) _ _ Hbuilt) as Hk.
  rewrite Honce in Hk.
  inversion Hk as [| ? obj ? rest (g & Hg & Hobj) Hrest Erows Eobjs]; subst.
  inversion Hrest; subst.
  eexists. exists g. split; [exact Hrun |]. split; [exact Hg |].
  cbn [odds]. apply added_with_identity.
  - apply purge_clears. apply in_map. exact Hin.
  - symmetry. assumption.
Qed.

End OddsTable.

(** ** The settlement pass and the persistence of predictions *)

Module Persistence.
Import Bets Fixtures.

(** Whatever [grade] returns is the row with a [bet_result] assigned. *)
Lemma grade_Ok (row row' : PredRow) :
  grade row = Ok row' -> exists b, row' = set_bet_result row b.
Proof.
  unfold grade.
  destruct (home_team_score row); cbn [operand rbind]; [| discriminate].
  destruct (away_team_score row); cbn [operand rbind]; [| discriminate].
  destruct (line row); cbn [operand rbind]; [| discriminate].
  repeat match goal with
         | |- context [if ?b then _ else _] => destruct b; cbn [operand rbind]
         | |- context [operand ?v] => destruct v; cbn [operand rbind]
         end;
    intro H; try discriminate H; injection H as <-; eexists; reflexivity.
Qed.

(** One object of the loop, whatever the outcome: the transaction is not
    touched, and no other object is. *)
Lemma grade_object_frame (i : nat) (s : Session) (r : result unit) (s' : Session) :
  grade_object tt i s = (r, s') ->
  committed s' = committed s /\ log s' = log s
  /\ (forall j, j <> i -> preds s' !! j = preds s !! j)
  /\ map pred_identity (preds s') = map pred_identity (preds s).
Proof.
  unfold grade_object. destruct (preds s !! i) as [row |] eqn:Erow.
  - destruct (grade row) as [row' | e] eqn:Eg; intro H; injection H as <- <-.
    + cbn. repeat split.
      * intros j Hj. apply list_lookup_insert_ne. congruence.
      * destruct (grade_Ok _ _ Eg) as (b & ->).
        clear Eg. revert i Erow. generalize (preds s).
        induction l as [| x l IH]; intros [| i] Hi; cbn in *; try discriminate.
        -- injection Hi as ->. destruct row; reflexivity.
        -- f_equal. apply IH. exact Hi.
    + repeat split.
  - intro H. injection H as <- <-. repeat split.
Qed.

Lemma grade_loop_frame (objs : list nat) :
  forall (s : Session) (r : result unit) (s' : Session),
    for_each_M grade_object objs tt s = (r, s') ->
    committed s' = committed s /\ log s' = log s
    /\ (forall j, ~ In j objs -> preds s' !! j = preds s !! j)
    /\ map pred_identity (preds s') = map pred_identity (preds s).
Proof.
  induction objs as [| i objs IH]; intros s r s' Hrun.
  - cbn in Hrun. injection Hrun as <- <-. repeat split.
  - cbn [for_each_M] in Hrun. unfold bind at 1 in Hrun.
    destruct (grade_object tt i s) as [[[] | e] s1] eqn:Estep.
    + destruct (grade_object_frame _ _ _ _ Estep) as (Hc & Hl & Hf & Hm).
      destruct (IH _ _ _ Hrun) as (Hc' & Hl' & Hf' & Hm').
      split; [congruence |]. split; [congruence |]. split; [| congruence].
      intros j Hj. rewrite Hf' by (intro; apply Hj; right; assumption).
      apply Hf. intro E. apply Hj. left. symmetry. exact E.
    + injection Hrun as <- <-.
      destruct (grade_object_frame _ _ _ _ Estep) as (Hc & Hl & Hf & Hm).
      split; [exact Hc |]. split; [exact Hl |]. split; [| exact Hm].
      intros j Hj. apply Hf. intro E. apply Hj. left. symmetry. exact E.
Qed.

(** A queried position holds a row that passes the filter. *)
Lemma positions_sound (p : PredRow -> bool) (rows : list PredRow) :
  forall (i j : nat),
    In j (positions p rows i) ->
    exists row, rows !! (j - i)%nat = Some row /\ p row = true /\ (i <= j)%nat.
Proof.
  induction rows as [| row rows IH]; intros i j Hin; [destruct Hin |].
  cbn [positions] in Hin.
  assert (Hrest : In j (positions p rows (S i)) ->
                  exists row', (row :: rows) !! (j - i)%nat = Some row'
                               /\ p row' = true /\ (i <= j)%nat).
  { intro H. destruct (IH _ _ H) as (row' & Hrow' & Hp & Hle).
    exists row'. replace (j - i)%nat with (S (j - S i)) by lia.
    split; [exact Hrow' |]. split; [exact Hp | lia]. }
  destruct (p row) eqn:Ep; [| exact (Hrest Hin)].
  destruct Hin as [<- | Hin]; [| exact (Hrest Hin)].
  exists row. rewrite Nat.sub_diag. split; [reflexivity |]. split; [exact Ep | lia].
Qed.

(** [update_prediction_table], whatever its outcome, leaves alone every row
    that does not pass its filter: a row that has a [bet_result], and a row
    whose home score is NULL or not positive. The transaction is not
    touched. *)
Lemma update_prediction_table_frame (s : Session) (r : result unit) (s' : Session) :
  update_prediction_table s = (r, s') ->
  committed s' = committed s /\ log s' = log s
  /\ map pred_identity (preds s') = map pred_identity (preds s)
  /\ forall i row, preds s !! i = Some row -> bet_filter row = false ->
                   preds s' !! i = Some row.
Proof.
  unfold update_prediction_table, bind, query, add_all_held, ret,
    update_bet_results, bind. cbn beta iota.
  destruct (for_each_M grade_object (positions bet_filter (preds s) 0) tt s)
    as [[[] | e] s1] eqn:Eloop; intro H; injection H as <- <-;
    destruct (grade_loop_frame _ _ _ _ Eloop) as (Hc & Hl & Hf & Hm);
    (split; [exact Hc |]; split; [exact Hl |]; split; [exact Hm |]);
    intros i row Hrow Hp; rewrite Hf; try exact Hrow;
    intro Hin; apply positions_sound in Hin;
    destruct Hin as (row' & Hrow' & Hp' & _);
    rewrite Nat.sub_0_r in Hrow'; congruence.
Qed.

(** A row that already has a [bet_result] is never graded again. *)
Lemma update_prediction_table_never_regrades (s : Session) (r : result unit)
    (s' : Session) (i : nat) (row : PredRow) (b : BetResult) :
  update_prediction_table s = (r, s') ->
  preds s !! i = Some row -> bet_result row = Some b ->
  preds s' !! i = Some row.
Proof.
  intros Hrun Hrow Hb.
  destruct (update_prediction_table_frame _ _ _ Hrun) as (_ & _ & _ & Hf).
  apply Hf; [exact Hrow |]. unfold bet_filter. rewrite Hb. reflexivity.
Qed.

(** Grading raises nothing but [TypeError], on a NULL operand. *)
Lemma grade_Raise (row : PredRow) (e : exn) :
  grade row = Raise e -> e = TypeError.
Proof.
  unfold grade.
  repeat match goal with
         | |- context [if ?b then _ else _] => destruct b; cbn [operand rbind]
         | |- context [operand ?v] => destruct v; cbn [operand rbind]
         end;
    intro H; try discriminate H; injection H as <-; reflexivity.
Qed.

Lemma grade_loop_no_conflict (objs : list nat) :
  forall s s' : Session,
    for_each_M grade_object objs tt s <> (Raise IntegrityError, s').
Proof.
  induction objs as [| i objs IH]; intros s s'; [discriminate |].
  cbn [for_each_M]. unfold bind at 1.
  destruct (grade_object tt i s) as [[[] | e] s1] eqn:Estep; [apply IH |].
  intro H. injection H as -> _. revert Estep. unfold grade_object.
  destruct (preds s !! i) as [row |]; [| discriminate].
  destruct (grade row) as [row' | e] eqn:Eg; [discriminate |].
  apply grade_Raise in Eg. subst e. discriminate.
Qed.

(** The settlement pass does not raise [IntegrityError]. *)
Lemma update_prediction_table_no_conflict (s s' : Session) :
  update_prediction_table s = (Raise IntegrityError, s') -> False.
Proof.
  unfold update_prediction_table, bind, query, add_all_held, ret,
    update_bet_results, bind. cbn beta iota.
  destruct (for_each_M grade_object (positions bet_filter (preds s) 0) tt s)
    as [[[] | e] s1] eqn:Eloop; [discriminate |].
  intro H. injection H as -> _. exact (grade_loop_no_conflict _ _ _ Eloop).
Qed.


(** The [try] statement of [predict_games_on_date] as the code has it. It
    calls [insert_predictions] with five positional arguments; the function
    takes four. The call raises [TypeError] before any row is staged, which
    [except IntegrityError] does not handle: the session is closed and the
    [TypeError] reaches the caller. Before that statement is reached,
    [predict_games_on_day] reads the undefined global [year], so that
    [predict_games_on_date] as a whole ends in a [NameError]. *)
Lemma persist_results_raises (data : list PredRow) (s : Session) :
  persist_results data s
  = (Raise TypeError, mk_session (preds s) (committed s) (log s ++ [Closed]))
  /\ predict_games_on_date data s = (Raise (NameError "year"), s)
  /\ insert_predictions data s = (Raise (NameError "update_schedule_attributes"), s).
Proof. repeat split. Qed.

End Persistence.

(** ** Worked instances *)

Module Instances.
Import LineScraper Bets Fixtures OddsTable Probability.

(** The Lakers game is in the table at -4.5 and is scraped again at -5.5:
    afterwards the table holds the one row at -5.5, tied to game 7 of the
    schedule. *)
Lemma update_odds_table_keeps_latest_witness :
  exists s',
    update_odds_table [lakers_odds (-11 # 2)] rescrape_session = (Ok tt, s')
    /\ odds s' = [mk_odds_row (lakers_odds (-11 # 2)) (Some 7)].
Proof.
  destruct (update_odds_table_keeps_latest rescrape_session
              [lakers_odds (-11 # 2)] (lakers_odds (-11 # 2)))
    as (s' & g & Hrun & Hg & Hk).
  - intros r [<- | []]. exists (mk_sched_row 7 "LAKERS" "CELTICS" tip_off).
    vm_compute. reflexivity.
  - vm_compute. reflexivity.
  - exists s'. split; [exact Hrun |].
    vm_compute in Hrun. injection Hrun as <-. reflexivity.
Defined.

(** C9, without a schedule entry for every row of the batch. The Lakers game
    is in the table at -4.5 and is scraped again at -5.5, in a batch that also
    holds the Heat game; the schedule holds the Lakers game only. The batch
    holds one row of the Lakers identity. [update_odds_table] deletes the old
    Lakers row, builds the new one, and raises [IndexError] at [game[0]] for the
    Heat row, whose schedule query is empty, before [add_all]: no row of the Lakers identity is left. *)
Lemma update_odds_table_unscheduled_row :
  List.filter
    (fun r => bool_decide (dict_identity r = dict_identity (lakers_odds (-11 # 2))))
    [lakers_odds (-11 # 2); heat_odds]
  = [lakers_odds (-11 # 2)]
  /\ with_identity (dict_identity (lakers_odds (-11 # 2))) (odds rescrape_session)
     = [mk_odds_row (lakers_odds (-9 # 2)) (Some 7)]
  /\ update_odds_table [lakers_odds (-11 # 2); heat_odds] rescrape_session
     = (Raise IndexError,
        LineScraper.mk_session [] [mk_sched_row 7 "LAKERS" "CELTICS" tip_off] true)
  /\ with_identity (dict_identity (lakers_odds (-11 # 2)))
       (odds (snd (update_odds_table [lakers_odds (-11 # 2); heat_odds]
                     rescrape_session)))
     = [].
Proof. repeat split. Qed.

(** Prediction 3.0 against a line of -4.5: the prediction is below 4.5, so
    the survival function at 4.5 is returned. The distribution functions here
    are stand-ins that return the standard score of their argument. *)
Lemma line_probability_cases_witness :
  line_probability standard_score standard_score (3 # 1) (-9 # 2) (2 # 1)
  = Tagged (standard_score (3 # 1) (2 # 1) (inject_Z (-1) * (-9 # 2))) "sf".
Proof.
  apply (line_probability_cases standard_score standard_score (3 # 1) (-9 # 2) (2 # 1)).
  reflexivity.
Defined.

End Instances.

(** ** Further properties of the three parsers *)

Module ParserCases.
Import LineScraper Fixtures.

Lemma py_int_raises (s : string) (e : exn) : py_int s = Raise e -> e = ValueError.
Proof.
  unfold py_int. destruct (split_sign (strip s)) as [sign body].
  destruct (unsigned_int body); intro H; [discriminate | congruence].
Qed.

Lemma py_float_raises (s : string) (e : exn) : py_float s = Raise e -> e = ValueError.
Proof.
  unfold py_float. destruct (split_sign (strip s)) as [sign body].
  destruct (break_at "."%char body) as [whole frac].
  destruct whole, frac as [[|] |];
    repeat match goal with
           | |- context [match ?x with Some _ => _ | None => _ end] => destruct x
           end; intro H; try discriminate; congruence.
Qed.

(** In the loop of [parse_spread] the spread and the home price are set
    together, and every failure is one of three. *)
Lemma spread_loop (outcomes : list Outcome) :
  forall sp hp ap : value,
    is_empty_str sp = is_empty_str hp ->
    match for_each spread_step outcomes (sp, hp, ap) with
    | Ok (sp', hp', _) => is_empty_str sp' = is_empty_str hp'
    | Raise e => spread_failure e
    end.
Proof.
  induction outcomes as [| o outcomes IH]; intros sp hp ap Hinv; [exact Hinv |].
  cbn [for_each]. unfold spread_step at 1.
  destruct (String.eqb (o_type o) "H").
  - destruct (handicap (o_price o)) as [h |]; cbn [rbind].
    + destruct (py_float h) as [q | e] eqn:Eq; cbn [rbind].
      * destruct (py_int (american (o_price o))) as [z | e] eqn:Ez; cbn [rbind].
        -- apply IH. reflexivity.
        -- apply py_int_raises in Ez. subst e. right. left. reflexivity.
      * apply py_float_raises in Eq. subst e. right. left. reflexivity.
    + right. right. reflexivity.
  - destruct (String.eqb (o_type o) "A").
    + destruct (py_int (american (o_price o))) as [z | e] eqn:Ez; cbn [rbind].
      * apply IH. exact Hinv.
      * apply py_int_raises in Ez. subst e. right. left. reflexivity.
    + cbn [rbind]. apply IH. exact Hinv.
Qed.

(** [parse_spread] ends in a result or in one of three exceptions: too many
    outcomes, a text that is not a number, or a home outcome without a
    handicap. The exception of its last line, "Spread was not properly
    parsed. Missing data.", is never raised: the spread and the home price are
    assigned together, so the test before it always holds. *)
Theorem parse_spread_failures (spread_bet : Market) :
  match parse_spread spread_bet with
  | Ok _ => True
  | Raise e => spread_failure e
  end.
Proof.
  unfold parse_spread.
  destruct (2 <? length (m_outcomes spread_bet))%nat; [left; reflexivity |].
  pose proof (spread_loop (m_outcomes spread_bet) (VStr "") (VStr "") (VStr "")
                eq_refl) as H.
  destruct (for_each spread_step (m_outcomes spread_bet) (VStr "", VStr "", VStr ""))
    as [[[sp hp] ap] | e]; cbn [rbind]; [| exact H].
  rewrite H. destruct (is_empty_str hp); exact I.
Qed.

(** A spread market with one home and one away outcome, in either order:
    the handicap of the home outcome and the two prices come back. *)
Theorem parse_spread_pair (description period h hp ap : string) (hc : option string)
    (q : Q) (x y : Z) :
  py_float h = Ok q -> py_int hp = Ok x -> py_int ap = Ok y ->
  parse_spread (mk_market description period
                  [mk_outcome "H" (mk_price hp (Some h)); mk_outcome "A" (mk_price ap hc)])
  = Ok (VFloat q, VInt x, VInt y)
  /\ parse_spread (mk_market description period
                     [mk_outcome "A" (mk_price ap hc); mk_outcome "H" (mk_price hp (Some h))])
     = Ok (VFloat q, VInt x, VInt y).
Proof.
  intros Hq Hx Hy. unfold parse_spread, spread_step. cbn.
  rewrite Hq, Hx, Hy. cbn. split; reflexivity.
Qed.

Lemma parse_spread_pair_witness :
  parse_spread point_spread = Ok (VFloat (-9 # 2), VInt (-110), VInt (-110)).
Proof.
  apply (parse_spread_pair "Point Spread" "Match" "-4.5" "-110" "-110" (Some "+4.5")
           (-9 # 2) (-110) (-110)); reflexivity.
Defined.

(** A moneyline market with one home and one away outcome, in either order:
    the two prices come back as integers, "EVEN" as 100. *)
Theorem parse_moneyline_pair (description period hp ap : string)
    (hh ha : option string) (x y : Z) :
  moneyline_price hp = Ok x -> moneyline_price ap = Ok y ->
  parse_moneyline (mk_market description period
                     [mk_outcome "H" (mk_price hp hh); mk_outcome "A" (mk_price ap ha)])
  = Ok (VInt x, VInt y)
  /\ parse_moneyline (mk_market description period
                        [mk_outcome "A" (mk_price ap ha); mk_outcome "H" (mk_price hp hh)])
     = Ok (VInt x, VInt y).
Proof.
  unfold moneyline_price. intros Hx Hy.
  unfold parse_moneyline, moneyline_step. cbn.
  rewrite Hx, Hy. cbn. split; reflexivity.
Qed.

Lemma parse_moneyline_pair_witness :
  parse_moneyline (moneyline "EVEN" "-120") = Ok (VInt 100, VInt (-120)).
Proof.
  apply (parse_moneyline_pair "Moneyline" "Match" "EVEN" "-120" None None 100 (-120));
    reflexivity.
Defined.

(** The Lakers at home against the Celtics, listed in either order. *)
Lemma parse_teams_home_away_witness :
  parse_teams [mk_competitor "Lakers" true; mk_competitor "Celtics" false]
  = Ok ("LAKERS", "CELTICS")
  /\ parse_teams [mk_competitor "Celtics" false; mk_competitor "Lakers" true]
     = Ok ("LAKERS", "CELTICS").
Proof.
  apply (Parsers.parse_teams_home_away "Lakers" "Celtics"). discriminate.
Defined.

End ParserCases.

(** ** Further properties of [odds_for_today] and [scrape] *)

Module GameLoop.
Import LineScraper Fixtures Feeds Columns.

(** One turn of the loop over the games, unfolded: the link is read, the
    clock is read once, and a game that has started is passed over. *)
Lemma game_step_run (w : World) (scrape_time : datetime) (l : Locals)
    (lines : Lines) (game : Event) (t : Trace) :
  game_step w scrape_time (l, lines) game t
  = match start_time_of game with
    | Raise e => (Raise e, t)
    | Ok start_time =>
        (if datetime_gt (clock w (clock_reads t)) start_time then Ok (l, lines)
         else rbind (row_of_game scrape_time start_time l game)
                (fun '(l2, game_lines) =>
                   rbind (append_row lines game_lines 0)
                     (fun lines' => Ok (l2, lines'))),
         mk_trace (requested t) (S (clock_reads t)))
    end.
Proof.
  unfold game_step, start_time_of, row_of_game.
  unfold bind at 1, lift at 1.
  destruct (strptime_YmdHM _) as [start_time | e]; [| reflexivity].
  unfold bind at 1, now.
  destruct (datetime_gt (clock w (clock_reads t)) start_time); [reflexivity |].
  unfold bind, lift, ret.
  destruct (parse_teams (e_competitors game)) as [teams | e]; [| reflexivity].
  cbn [rbind].
  destruct (e_displayGroups game) as [| markets rest]; [reflexivity |].
  cbn [rbind].
  destruct (for_each bet_step _ (l, false)) as [after | e]; [| reflexivity].
  cbn [rbind].
  repeat match goal with
         | |- context [read ?n ?v] => destruct (read n v); cbn [rbind]; [| reflexivity]
         end.
  destruct (append_row lines _ 0); reflexivity.
Qed.

(** The row of a game none of whose full-match markets is a moneyline. *)
Lemma row_without_moneyline (scrape_time start_time : datetime) (l l' : Locals)
    (game : Event) (game_lines : list value) :
  Forall (fun bet => m_description bet <> "Moneyline") (match_bets game) ->
  row_of_game scrape_time start_time l game = Ok (l', game_lines) ->
  nth_error game_lines 6 = Some VNone /\ nth_error game_lines 7 = Some VNone.
Proof.
  unfold match_bets, row_of_game. intros Hbets.
  destruct (parse_teams (e_competitors game)) as [teams | e]; [| discriminate].
  cbn [rbind].
  destruct (e_displayGroups game) as [| markets rest]; [discriminate |].
  cbn [rbind].
  destruct (for_each bet_step _ (l, false)) as [[l1 flag] | e] eqn:Eloop;
    [| discriminate].
  rewrite (Parsers.bets_without_moneyline _ Hbets _ _ _ _ Eloop).
  cbn [rbind fst snd spread home_spread_price away_spread_price home_moneyline
       away_moneyline read].
  destruct (spread l1); cbn [rbind read]; [| discriminate].
  destruct (home_spread_price l1); cbn [rbind read]; [| discriminate].
  destruct (away_spread_price l1); cbn [rbind read]; [| discriminate].
  intro H. injection H as <- <-. split; reflexivity.
Qed.

(** A game that has not started and none of whose full-match markets is a
    moneyline: if its turn of the loop succeeds, the row appended to the
    columns has [None] in both moneyline columns (positions 6 and 7 of
    [game_lines]), whatever an earlier game left in the locals. *)
Theorem game_without_moneyline (w : World) (scrape_time start_time : datetime)
    (l l' : Locals) (lines lines' : Lines) (game : Event) (t t' : Trace) :
  start_time_of game = Ok start_time ->
  datetime_gt (clock w (clock_reads t)) start_time = false ->
  Forall (fun bet => m_description bet <> "Moneyline") (match_bets game) ->
  game_step w scrape_time (l, lines) game t = (Ok (l', lines'), t') ->
  exists game_lines,
    append_row lines game_lines 0 = Ok lines'
    /\ nth_error game_lines 6 = Some VNone
    /\ nth_error game_lines 7 = Some VNone.
Proof.
  intros Hstart Hfuture Hbets. rewrite game_step_run, Hstart, Hfuture.
  destruct (row_of_game scrape_time start_time l game) as [[l2 gl] | e] eqn:Erow;
    cbn [rbind]; [| discriminate].
  destruct (append_row lines gl 0) as [lines2 | e] eqn:Eapp; cbn [rbind];
    [| discriminate].
  intro H. injection H as _ <- _.
  exists gl. split; [exact Eapp |].
  exact (row_without_moneyline _ _ _ _ _ _ Hbets Erow).
Qed.

Lemma game_without_moneyline_witness :
  exists l' lines' t' game_lines,
    game_step (world [] []) noon (unbound, empty_lines) nuggets_suns start
    = (Ok (l', lines'), t')
    /\ append_row empty_lines game_lines 0 = Ok lines'
    /\ nth_error game_lines 6 = Some VNone
    /\ nth_error game_lines 7 = Some VNone.
Proof.
  destruct (game_step (world [] []) noon (unbound, empty_lines) nuggets_suns start)
    as [[[l' lines'] | e] t'] eqn:E; [| vm_compute in E; discriminate E].
  exists l', lines', t'.
  destruct (game_without_moneyline (world [] []) noon
              (mk_datetime 2025 3 26 22 0 0 0) unbound l' empty_lines lines'
              nuggets_suns start t') as (gl & Happ & H6 & H7).
  - vm_compute. reflexivity.
  - vm_compute. reflexivity.
  - repeat constructor; discriminate.
  - exact E.
  - exists gl. repeat split; assumption.
Defined.

(** The loop over games that have all started. *)
Lemma started_loop (w : World) (scrape_time : datetime) (games : list Event) :
  (forall game, In game games ->
     exists start_time, start_time_of game = Ok start_time
                        /\ forall n, datetime_gt (clock w n) start_time = true) ->
  forall (acc : Locals * Lines) (t : Trace),
    fst (for_each_M (game_step w scrape_time) games acc t) = Ok acc.
Proof.
  induction games as [| game games IH]; intros Hall acc t; [reflexivity |].
  destruct acc as [l lines]. cbn [for_each_M]. unfold bind at 1.
  rewrite game_step_run.
  destruct (Hall game (or_introl eq_refl)) as (start_time & Hstart & Hpast).
  rewrite Hstart, Hpast. apply IH. intros g Hg. apply Hall. right. exact Hg.
Qed.

(** When every game of the feed has already started, [odds_for_today] does
    not return [None]: it returns the dictionary with its nine columns empty,
    and [scrape] hands that dictionary on instead of returning [False]. *)
Theorem odds_for_today_all_started (w : World) (t : Trace) (group : EventGroup)
    (rest : Payload) :
  answering w = group :: rest ->
  List.filter is_game (g_events group) <> [] ->
  (forall game, In game (List.filter is_game (g_events group)) ->
     exists start_time, start_time_of game = Ok start_time
                        /\ forall n, datetime_gt (clock w n) start_time = true) ->
  fst (odds_for_today w t) = Ok (Some empty_lines)
  /\ fst (scrape w t) = Ok (ScrapeLines empty_lines).
Proof.
  intros Hans Hne Hall.
  assert (Hodds : fst (odds_for_today w t) = Ok (Some empty_lines)).
  { rewrite odds_for_today_run. unfold answering in Hans.
    assert (Hread : forall t0,
              fst (read_payload w (clock w (clock_reads t)) (Some (group :: rest)) t0)
              = Ok (Some empty_lines)).
    { intro t0. cbn [read_payload]. unfold bind at 1, lift. cbn zeta.
      destruct (List.filter is_game (g_events group)) as [| g gs] eqn:Eg;
        [contradiction |].
      unfold bind, ret.
      pose proof (started_loop w (clock w (clock_reads t)) (g :: gs) Hall
                    (unbound, empty_lines) t0) as Hloop.
      destruct (for_each_M _ (g :: gs) (unbound, empty_lines) t0) as [[fin | e] t1];
        cbn in Hloop; [| discriminate].
      injection Hloop as ->. reflexivity. }
    destruct (http_get w (regularURL w)) as [| g1 r1].
    - destruct (http_get w (playoffURL w)) as [| g2 r2]; [discriminate |].
      rewrite Hans. apply Hread.
    - rewrite Hans. apply Hread. }
  split; [exact Hodds |].
  unfold scrape, bind. destruct (odds_for_today w t) as [[lines | e] t1];
    cbn in *; [| discriminate].
  injection Hodds as ->. reflexivity.
Qed.

Lemma odds_for_today_all_started_witness :
  fst (odds_for_today (late_world [mk_group [lakers_celtics; heat_bulls]] []) start)
  = Ok (Some empty_lines)
  /\ fst (scrape (late_world [mk_group [lakers_celtics; heat_bulls]] []) start)
     = Ok (ScrapeLines empty_lines).
Proof.
  apply (odds_for_today_all_started
           (late_world [mk_group [lakers_celtics; heat_bulls]] []) start
           (mk_group [lakers_celtics; heat_bulls]) []).
  - reflexivity.
  - discriminate.
  - intros game [<- | [<- | []]]; eexists; (split; [vm_compute; reflexivity |]);
      intro n; vm_compute; reflexivity.
Defined.

Lemma filter_is_game_twice (events : list Event) :
  List.filter is_game (List.filter is_game events) = List.filter is_game events.
Proof.
  induction events as [| e events IH]; [reflexivity |].
  cbn [List.filter]. destruct (is_game e) eqn:E; [| exact IH].
  cbn [List.filter]. rewrite E, IH. reflexivity.
Qed.

(** What [read_payload] builds depends on the game events of the first
    group only. *)
Lemma read_payload_games_only (w : World) (scrape_time : datetime)
    (group : EventGroup) (rest : Payload) (t : Trace) :
  read_payload (games_only w) scrape_time
    (Some [mk_group (List.filter is_game (g_events group))]) t
  = read_payload w scrape_time (Some (group :: rest)) t.
Proof.
  cbn [read_payload]. unfold bind at 1 3, lift. cbn [g_events]. cbn zeta.
  rewrite filter_is_game_twice. reflexivity.
Qed.

(** Entries of a feed that are not game events, and every group of a
    payload after the first, have no effect: [odds_for_today] returns the same
    result, with the same requests, when each feed answers with the game
    events of its first group alone. *)
Theorem odds_for_today_games_only (w : World) (t : Trace) :
  odds_for_today (games_only w) t = odds_for_today w t.
Proof.
  rewrite !odds_for_today_run. cbn [games_only http_get regularURL playoffURL clock].
  destruct (http_get w (regularURL w)) as [| g1 r1].
  - destruct (http_get w (playoffURL w)) as [| g2 r2]; [reflexivity |].
    apply read_payload_games_only.
  - apply read_payload_games_only.
Qed.

(** A game that has not started and lists more than two competitors, first
    among the games of the feed: [odds_for_today] raises, and no game of the
    feed is returned. *)
Theorem odds_for_today_three_competitors (w : World) (t : Trace)
    (group : EventGroup) (rest : Payload) (game : Event) (games : list Event)
    (start_time : datetime) :
  answering w = group :: rest ->
  List.filter is_game (g_events group) = game :: games ->
  start_time_of game = Ok start_time ->
  datetime_gt (clock w (S (clock_reads t))) start_time = false ->
  (2 < length (e_competitors game))%nat ->
  fst (odds_for_today w t) = Raise (Exception "Unexpected objects in competitors").
Proof.
  intros Hans Hgames Hstart Hfuture Hmany.
  rewrite odds_for_today_run. unfold answering in Hans.
  assert (Hread : forall urls,
            fst (read_payload w (clock w (clock_reads t)) (Some (group :: rest))
                   (mk_trace urls (S (clock_reads t))))
            = Raise (Exception "Unexpected objects in competitors")).
  { intro urls. cbn [read_payload]. unfold bind at 1, lift. cbn zeta.
    rewrite Hgames. unfold bind at 1. cbn [for_each_M]. unfold bind at 1.
    rewrite game_step_run, Hstart. cbn [clock_reads]. rewrite Hfuture.
    unfold row_of_game. rewrite (Parsers.parse_teams_too_many _ Hmany).
    reflexivity. }
  destruct (http_get w (regularURL w)) as [| g1 r1].
  - destruct (http_get w (playoffURL w)) as [| g2 r2]; [discriminate |].
    rewrite Hans. apply Hread.
  - rewrite Hans. apply Hread.
Qed.

Lemma odds_for_today_three_competitors_witness :
  fst (odds_for_today (world [mk_group [three_way; lakers_celtics]] []) start)
  = Raise (Exception "Unexpected objects in competitors").
Proof.
  apply (odds_for_today_three_competitors
           (world [mk_group [three_way; lakers_celtics]] []) start
           (mk_group [three_way; lakers_celtics]) [] three_way [lakers_celtics]
           (mk_datetime 2025 3 26 22 30 0 0)).
  - reflexivity.
  - reflexivity.
  - vm_compute. reflexivity.
  - vm_compute. reflexivity.
  - cbn. lia.
Defined.

Lemma odds_for_today_shape (w : World) (t : Trace) (lines : Lines) (t' : Trace) :
  odds_for_today w t = (Ok (Some lines), t') -> exists n, rectangular n lines.
Proof.
  rewrite odds_for_today_run. intro H.
  destruct (http_get w (regularURL w)); eapply read_payload_shape; exact H.
Qed.

(** [scrape] returns [False] exactly when [odds_for_today] returns [None];
    a dictionary is handed on as it is, also when its columns are empty, and
    an exception of [odds_for_today] is not handled. *)
Theorem scrape_passes_on (w : World) (t : Trace) :
  scrape w t
  = match odds_for_today w t with
    | (Ok None, t') => (Ok ScrapeFalse, t')
    | (Ok (Some lines), t') => (Ok (ScrapeLines lines), t')
    | (Raise e, t') => (Raise e, t')
    end.
Proof.
  unfold scrape, bind.
  destruct (odds_for_today w t) as [[[lines |] | e] t'] eqn:Erun; try reflexivity.
  destruct (odds_for_today_shape _ _ _ _ Erun) as (n & Hkeys & _).
  destruct lines; [discriminate Hkeys | reflexivity].
Qed.

End GameLoop.

(** ** One value per column for every emitted game *)

Module EmittedGames.
Import LineScraper Fixtures Feeds Columns GameLoop.

(** One turn of the loop that succeeds: the start time is read off the link,
    the clock is read once, and either the game has started and the
    dictionary is untouched, or every column is one value longer. *)
Lemma game_step_emits (w : World) (scrape_time : datetime) (l : Locals)
    (lines : Lines) (game : Event) (t : Trace) (l' : Locals) (lines' : Lines)
    (t' : Trace) (n : nat) :
  game_step w scrape_time (l, lines) game t = (Ok (l', lines'), t') ->
  rectangular n lines ->
  exists start_time,
    start_time_of game = Ok start_time
    /\ clock_reads t' = S (clock_reads t)
    /\ if datetime_gt (clock w (clock_reads t)) start_time
       then lines' = lines
       else rectangular (S n) lines'.
Proof.
  rewrite game_step_run. intros Hrun [Hkeys Hlens].
  destruct (start_time_of game) as [start_time | e]; [| discriminate Hrun].
  exists start_time. split; [reflexivity |].
  destruct (datetime_gt (clock w (clock_reads t)) start_time).
  - injection Hrun as _ <- <-. split; reflexivity.
  - destruct (row_of_game scrape_time start_time l game) as [[l2 gl] | e];
      cbn [rbind] in Hrun; [| discriminate Hrun].
    destruct (append_row lines gl 0) as [lines2 | e] eqn:Eapp;
      cbn [rbind] in Hrun; [| discriminate Hrun].
    injection Hrun as _ <- <-. split; [reflexivity |].
    destruct (append_row_shape _ _ _ _ _ Eapp Hlens) as [K L].
    split; [rewrite K; exact Hkeys | exact L].
Qed.

(** The loop over the games: the columns grow by one value for each game
    that is emitted, and by nothing else. *)
Lemma games_loop_emitted (w : World) (scrape_time : datetime) (games : list Event) :
  forall (l : Locals) (lines : Lines) (t : Trace) (l' : Locals) (lines' : Lines)
         (t' : Trace) (n : nat),
    for_each_M (game_step w scrape_time) games (l, lines) t = (Ok (l', lines'), t') ->
    rectangular n lines ->
    rectangular (n + length (emitted w (clock_reads t) games)) lines'.
Proof.
  induction games as [| game games IH]; intros l lines t l' lines' t' n Hrun Hrect.
  - cbn in Hrun. injection Hrun as _ <- _. cbn. rewrite Nat.add_0_r. exact Hrect.
  - cbn [for_each_M] in Hrun. unfold bind at 1 in Hrun.
    destruct (game_step w scrape_time (l, lines) game t)
      as [[[l1 lines1] | e] t1] eqn:Estep; [| discriminate Hrun].
    destruct (game_step_emits _ _ _ _ _ _ _ _ _ _ Estep Hrect)
      as (start_time & Hstart & Hreads & Hstep).
    cbn [emitted]. rewrite Hstart, <- Hreads.
    destruct (datetime_gt (clock w (clock_reads t)) start_time).
    + subst lines1. exact (IH _ _ _ _ _ _ _ Hrun Hrect).
    + cbn [length]. rewrite Nat.add_succ_r.
      exact (IH _ _ _ _ _ _ _ Hrun Hstep).
Qed.

(** [read_payload] on the payload that [odds_for_today] settles on. *)
Lemma read_payload_emitted (w : World) (scrape_time : datetime) (t : Trace)
    (lines : Lines) (t' : Trace) :
  read_payload w scrape_time
    (match answering w with [] => None | payload => Some payload end) t
  = (Ok (Some lines), t') ->
  rectangular (length (emitted w (clock_reads t) (feed_games w))) lines.
Proof.
  unfold feed_games.
  destruct (answering w) as [| group rest]; cbn [read_payload]; [discriminate |].
  unfold bind at 1, lift. cbn zeta.
  destruct (List.filter is_game (g_events group)) as [| g gs] eqn:Eg;
    [discriminate |].
  unfold bind, ret.
  destruct (for_each_M _ _ _ t) as [[[l' lines'] | e] t1] eqn:Eloop;
    [| discriminate].
  intro H. injection H as <- _.
  exact (games_loop_emitted _ _ _ _ _ _ _ _ _ 0%nat Eloop rectangular_empty).
Qed.

(** C10. Every dictionary that [odds_for_today] returns has exactly the nine
    keys home_team, away_team, start_time, spread, home_spread_price,
    away_spread_price, home_moneyline, away_moneyline and scrape_time, and
    each of its nine lists holds exactly one value for every game that is
    emitted: the game events of the feed that answers whose start time is not
    behind the clock when their turn of the loop reads it. A game that has
    started adds nothing. *)
Theorem odds_for_today_columns (w : World) (t : Trace) (lines : Lines)
    (t' : Trace) :
  odds_for_today w t = (Ok (Some lines), t') ->
  map fst lines = column_names
  /\ Forall (fun column =>
               length (snd column)
               = length (emitted w (S (clock_reads t)) (feed_games w)))
       lines.
Proof.
  rewrite odds_for_today_run. intro H.
  apply (read_payload_emitted w (clock w (clock_reads t))
           (mk_trace
              (match http_get w (regularURL w) with
               | [] => requested t ++ [regularURL w; playoffURL w]
               | _ => requested t ++ [regularURL w]
               end)
              (S (clock_reads t)))
           lines t').
  unfold answering. destruct (http_get w (regularURL w)); exact H.
Qed.

(** The feed holds the Lakers game, at 19:30, and a game of the same teams
    that started at 9:00; the clock shows noon. The dictionary has the nine
    keys and one value in every column. *)
Lemma odds_for_today_columns_witness :
  exists lines,
    fst (odds_for_today (world [mk_group [morning_game; lakers_celtics]] []) start)
    = Ok (Some lines)
    /\ map fst lines = column_names
    /\ Forall (fun column => length (snd column) = 1%nat) lines.
Proof.
  destruct (odds_for_today (world [mk_group [morning_game; lakers_celtics]] []) start)
    as [r t'] eqn:Erun.
  assert (Hr : exists lines, r = Ok (Some lines)).
  { vm_compute in Erun. injection Erun as <- _. eexists. reflexivity. }
  destruct Hr as (lines & ->). exists lines. split; [reflexivity |].
  exact (odds_for_today_columns _ _ _ _ Erun).
Defined.

End EmittedGames.

(** ** Further properties of [update_odds_table] *)

Module OddsTableCases.
Import LineScraper Fixtures OddsTable.

(** One row of the batch, whatever the schedule holds: the rows of its
    identity are deleted first; then the lookup of its game decides. *)
Lemma odds_row_step_cases (s : Session) (row_objects : list OddsRow)
    (row : OddsDict) :
  odds_row_step row_objects row s
  = (match List.filter (fun g => bool_decide (sched_identity g = dict_identity row))
                       (sched s) with
     | [] => Raise IndexError
     | [g] => Ok (row_objects ++ [mk_odds_row row (Some (s_id g))])
     | _ :: _ :: _ => Raise (Exception "More than one game matches the row")
     end,
     mk_session (without_identity (dict_identity row) (odds s)) (sched s) (eager s)).
Proof.
  unfold odds_row_step. unfold bind at 1. cbn [query_odds].
  fold (with_identity (dict_identity row) (odds s)).
  assert (Hdel :
    (if (0 <? length (with_identity (dict_identity row) (odds s)))%nat
     then for_each_M (fun (_ : unit) exist_row => session_delete exist_row)
            (with_identity (dict_identity row) (odds s)) tt
     else ret tt) s
    = (Ok tt, mk_session (without_identity (dict_identity row) (odds s))
                         (sched s) (eager s))).
  { rewrite <- delete_all_with_identity.
    destruct (with_identity (dict_identity row) (odds s)) as [| x xs].
    - destruct s; reflexivity.
    - cbn [length Nat.ltb Nat.leb]. apply delete_loop. }
  unfold bind at 1. rewrite Hdel.
  unfold bind at 1. unfold query_sched. cbn [sched].
  change (identity (mk_odds_row row None)) with (dict_identity row).
  destruct (List.filter _ (sched s)) as [| g [| g' gs]]; reflexivity.
Qed.

(** A batch whose first row has no game on the schedule, or more than one:
    [update_odds_table] raises ([IndexError] from [game[0]], or its own
    "More than one game matches the row"), nothing is added, and the rows that
    the table held for that game are already deleted in the session. *)
Theorem update_odds_table_unscheduled (s : Session) (row : OddsDict)
    (rows : list OddsDict) :
  let games :=
    List.filter (fun g => bool_decide (sched_identity g = dict_identity row))
                (sched s) in
  length games <> 1%nat ->
  update_odds_table (row :: rows) s
  = (Raise (if (length games =? 0)%nat then IndexError
            else Exception "More than one game matches the row"),
     mk_session (without_identity (dict_identity row) (odds s)) (sched s) (eager s)).
Proof.
  intros games Hlen. unfold update_odds_table. cbn [length Nat.eqb].
  unfold bind at 1. cbn [for_each_M]. unfold bind at 1.
  rewrite odds_row_step_cases. fold games.
  destruct games as [| g [| g' gs]]; [reflexivity | | reflexivity].
  exfalso. apply Hlen. reflexivity.
Qed.

Lemma update_odds_table_unscheduled_witness :
  update_odds_table [lakers_odds (-11 # 2)]
    (mk_session [mk_odds_row (lakers_odds (-9 # 2)) (Some 7)] [] true)
  = (Raise IndexError, mk_session [] [] true).
Proof.
  apply (update_odds_table_unscheduled
           (mk_session [mk_odds_row (lakers_odds (-9 # 2)) (Some 7)] [] true)
           (lakers_odds (-11 # 2)) []).
  cbn. lia.
Defined.

(** The objects built for a batch have the identities of its rows. *)
Lemma built_without_identity (schedule : list SchedRow) (k : Identity)
    (rows : list OddsDict) (objs : list OddsRow) :
  Forall2 (built schedule) rows objs ->
  ~ In k (map dict_identity rows) ->
  with_identity k objs = [].
Proof.
  induction 1 as [| row obj rows objs (g & Hg & ->) _ IH]; intro Hout;
    [reflexivity |].
  rewrite with_identity_cons.
  change (identity (mk_odds_row row (Some (s_id g)))) with (dict_identity row).
  rewrite bool_decide_eq_false_2.
  - apply IH. intro H. apply Hout. right. exact H.
  - intro E. apply Hout. left. exact E.
Qed.

(** [update_odds_table] leaves alone the rows of every game that is not in
    the batch: for an identity that no row of the batch has, the table holds
    the same rows after the call as before, in the same order. *)
Theorem update_odds_table_other_games (s : Session) (rows : list OddsDict)
    (k : Identity) :
  (forall r, In r rows -> exists g, scheduled (sched s) r g) ->
  ~ In k (map dict_identity rows) ->
  exists s',
    update_odds_table rows s = (Ok tt, s')
    /\ with_identity k (odds s') = with_identity k (odds s)
    /\ sched s' = sched s.
Proof.
  intros Hall Hout. destruct rows as [| row rows'].
  - exists s. repeat split.
  - destruct (update_odds_table_run s (row :: rows')) as (objs & Hbuilt & Hrun);
      [discriminate | exact Hall |].
    eexists. split; [exact Hrun |]. split; [| reflexivity].
    cbn [odds].
    pose proof (built_without_identity _ k _ _ Hbuilt Hout) as Hobjs.
    pose proof (purge_frame k (row :: rows') (odds s) Hout) as Hpurge.
    unfold added. destruct (eager s).
    + destruct (insert_all _ objs) as [tbl' |] eqn:Ei.
      * rewrite (insert_all_Some _ _ _ Ei), with_identity_app, Hobjs, app_nil_r.
        exact Hpurge.
      * rewrite with_identity_add_or_skip, Hobjs, Hpurge.
        destruct (with_identity k (odds s)); reflexivity.
    + rewrite with_identity_app, Hobjs, app_nil_r. exact Hpurge.
Qed.

Lemma update_odds_table_other_games_witness :
  exists s',
    update_odds_table [lakers_odds (-11 # 2)] two_game_session = (Ok tt, s')
    /\ with_identity (dict_identity heat_odds) (odds s')
       = [mk_odds_row heat_odds (Some 8)].
Proof.
  destruct (update_odds_table_other_games two_game_session [lakers_odds (-11 # 2)]
              (dict_identity heat_odds)) as (s' & Hrun & Hk & _).
  - intros r [<- | []]. exists (mk_sched_row 7 "LAKERS" "CELTICS" tip_off).
    vm_compute. reflexivity.
  - intros [E | []]. discriminate E.
  - exists s'. split; [exact Hrun |]. rewrite Hk. reflexivity.
Defined.

End OddsTableCases.

(** ** Further properties of the settlement pass *)

Module SettlementCases.
Import Bets Fixtures Settlement Persistence.

(** The finished game that is on the line: 100 to 95 with a line of -5 is a
    PUSH, with and without a prediction. *)
Lemma grade_push_witness :
  grade (mk_pred_row "LAKERS" "CELTICS" tip_off (Some 100) (Some 95)
           (Some (-5 # 1)%Q) None None)
  = Ok (mk_pred_row "LAKERS" "CELTICS" tip_off (Some 100) (Some 95)
          (Some (-5 # 1)%Q) None (Some PUSH)).
Proof.
  apply (grade_push (mk_pred_row "LAKERS" "CELTICS" tip_off (Some 100) (Some 95)
                       (Some (-5 # 1)%Q) None None) 100 95 (-5 # 1)%Q);
    reflexivity.
Defined.

(** A session with a graded row, a finished row and a row without scores:
    the pass leaves the graded row as it is. *)
Lemma update_prediction_table_never_regrades_witness :
  exists s',
    update_prediction_table (session_of [graded; finished; unscored]) = (Ok tt, s')
    /\ preds s' !! 0%nat = Some graded.
Proof.
  destruct (update_prediction_table (session_of [graded; finished; unscored]))
    as [r s'] eqn:Erun.
  assert (Hr : r = Ok tt) by (vm_compute in Erun; congruence).
  subst r. exists s'. split; [reflexivity |].
  apply (update_prediction_table_never_regrades _ _ _ 0%nat graded LOSS Erun);
    reflexivity.
Defined.

(** [grade] raises exactly on the rows that miss an operand it uses, and
    then it raises [TypeError]; on every other row it assigns a result. *)
Theorem grade_raises_iff (row : PredRow) :
  (ungradable row -> grade row = Raise TypeError)
  /\ (~ ungradable row -> exists b, grade row = Ok (set_bet_result row b)).
Proof.
  unfold ungradable, grade.
  destruct (home_team_score row) as [h |]; cbn [operand rbind];
    [| split; [reflexivity | intro H; exfalso; apply H; left; reflexivity]].
  destruct (away_team_score row) as [a |]; cbn [operand rbind];
    [| split; [reflexivity | intro H; exfalso; apply H; right; left; reflexivity]].
  destruct (line row) as [l |]; cbn [operand rbind];
    [| split; [reflexivity
              | intro H; exfalso; apply H; right; right; left; reflexivity]].
  set (m := inject_Z (h - a)). set (li := (l * inject_Z (-1))%Q).
  assert (Eli : (li == - l)%Q) by apply line_inverse_eq.
  destruct (prediction row) as [p |].
  - split.
    + intros [H | [H | [H | [H _]]]]; discriminate H.
    + intros _. cbn [operand rbind].
      destruct (num_eq m li); [eexists; reflexivity |].
      destruct (num_lt m li); cbn [rbind].
      * destruct (num_lt p li); [eexists; reflexivity |].
        destruct (num_gt m li); cbn [rbind];
          [destruct (num_gt p li) |]; eexists; reflexivity.
      * destruct (num_gt m li); cbn [rbind];
          [destruct (num_gt p li) |]; eexists; reflexivity.
  - unfold num_eq, num_lt, num_gt. cbn [operand rbind].
    destruct (Qcompare_spec m li) as [E | L | G]; cbn [rbind].
    + split.
      * intros [H | [H | [H | [_ H]]]]; try discriminate H.
        exfalso. apply (H h a l eq_refl eq_refl eq_refl). fold m.
        rewrite <- Eli. exact E.
      * intros _. eexists. reflexivity.
    + split; [reflexivity |].
      intro H. exfalso. apply H. right. right. right. split; [reflexivity |].
      intros h' a' l' Hh Ha Hl. injection Hh as <-. injection Ha as <-.
      injection Hl as <-. fold m. rewrite <- Eli. intro E. rewrite E in L.
      exact (Qlt_irrefl _ L).
    + split; [reflexivity |].
      intro H. exfalso. apply H. right. right. right. split; [reflexivity |].
      intros h' a' l' Hh Ha Hl. injection Hh as <-. injection Ha as <-.
      injection Hl as <-. fold m. rewrite <- Eli. intro E. rewrite E in G.
      exact (Qlt_irrefl _ G).
Qed.

(** A prediction that sits exactly on the negated line is never graded WIN:
    the row is a PUSH when the margin is on the line too, and a LOSS
    otherwise. *)
Theorem on_the_line_never_wins (row : PredRow) (h a : Z) (l p : Q) :
  numeric row h a l p -> (p == - l)%Q ->
  ((inject_Z (h - a) == - l)%Q -> grade row = Ok (set_bet_result row PUSH))
  /\ (~ (inject_Z (h - a) == - l)%Q -> grade row = Ok (set_bet_result row LOSS)).
Proof.
  intros Hnum Hp.
  destruct (grade_settles row h a l p Hnum) as (b & Hgrade & Hpush & _ & Hloss).
  rewrite Hgrade. split.
  - intro E. rewrite (Hpush E). reflexivity.
  - intro N. rewrite (Hloss N); [reflexivity |].
    cbv zeta. intros [[_ H] | [_ H]]; rewrite Hp in H; exact (Qlt_irrefl _ H).
Qed.

(** Home by 10 against a line of -4.5, predicted at 4.5 exactly: a LOSS,
    although the margin is on the side of the line the bet needs. *)
Lemma on_the_line_never_wins_witness :
  grade (mk_pred_row "LAKERS" "CELTICS" tip_off (Some 100) (Some 90)
           (Some (-9 # 2)%Q) (Some (9 # 2)%Q) None)
  = Ok (mk_pred_row "LAKERS" "CELTICS" tip_off (Some 100) (Some 90)
          (Some (-9 # 2)%Q) (Some (9 # 2)%Q) (Some LOSS)).
Proof.
  apply (on_the_line_never_wins
           (mk_pred_row "LAKERS" "CELTICS" tip_off (Some 100) (Some 90)
              (Some (-9 # 2)%Q) (Some (9 # 2)%Q) None)
           100 90 (-9 # 2)%Q (9 # 2)%Q).
  - repeat split.
  - reflexivity.
  - intro H. vm_compute in H. discriminate H.
Defined.

End SettlementCases.

(** ** The settlement pass as a whole *)

Module SettlementPassCases.
Import Bets Fixtures Settlement Persistence.

(** One object of the loop, seen from the rows: each row is kept up to its
    [bet_result], and after a success the object has one. *)
Lemma grade_object_rows (i : nat) (s : Session) (r : result unit) (s' : Session) :
  grade_object tt i s = (r, s') ->
  length (preds s') = length (preds s)
  /\ (forall j row', preds s' !! j = Some row' ->
        exists row, preds s !! j = Some row /\ same_but_result row row')
  /\ (r = Ok tt -> exists row', preds s' !! i = Some row' /\ bet_result row' <> None).
Proof.
  unfold grade_object. destruct (preds s !! i) as [row |] eqn:Erow.
  - destruct (grade row) as [row1 | e] eqn:Eg; intro H; injection H as <- <-.
    + destruct (grade_Ok _ _ Eg) as (b & ->). cbn [preds].
      assert (Hi : (i < length (preds s))%nat) by (eapply lookup_lt_Some; exact Erow).
      split; [apply length_insert |]. split.
      * intros j row' Hj. destruct (Nat.eq_dec i j) as [<- | Hne].
        -- rewrite list_lookup_insert_eq in Hj by exact Hi. injection Hj as <-.
           exists row. split; [exact Erow | right; exists b; reflexivity].
        -- rewrite list_lookup_insert_ne in Hj by exact Hne.
           exists row'. split; [exact Hj | left; reflexivity].
      * intros _. exists (set_bet_result row b).
        split; [apply list_lookup_insert_eq; exact Hi | discriminate].
    + split; [reflexivity |]. split; [| discriminate].
      intros j row' Hj. exists row'. split; [exact Hj | left; reflexivity].
  - intro H. injection H as <- <-. split; [reflexivity |]. split; [| discriminate].
    intros j row' Hj. exists row'. split; [exact Hj | left; reflexivity].
Qed.

Lemma same_but_result_trans (a b c : PredRow) :
  same_but_result a b -> same_but_result b c -> same_but_result a c.
Proof.
  intros [-> | (x & ->)] [-> | (y & ->)].
  - left. reflexivity.
  - right. exists y. reflexivity.
  - right. exists x. reflexivity.
  - right. exists y. destruct a; reflexivity.
Qed.

Lemma same_but_result_graded (a b : PredRow) :
  same_but_result a b -> bet_result a <> None -> bet_result b <> None.
Proof. intros [-> | (x & ->)] H; [exact H | discriminate]. Qed.

Lemma grade_loop_rows (objs : list nat) :
  forall (s : Session) (r : result unit) (s' : Session),
    for_each_M grade_object objs tt s = (r, s') ->
    length (preds s') = length (preds s)
    /\ (forall j row', preds s' !! j = Some row' ->
          exists row, preds s !! j = Some row /\ same_but_result row row')
    /\ (r = Ok tt -> forall i, In i objs ->
          exists row', preds s' !! i = Some row' /\ bet_result row' <> None).
Proof.
  induction objs as [| i objs IH]; intros s r s' Hrun.
  - cbn in Hrun. injection Hrun as <- <-. split; [reflexivity |]. split.
    + intros j row' Hj. exists row'. split; [exact Hj | left; reflexivity].
    + intros _ i [].
  - cbn [for_each_M] in Hrun. unfold bind at 1 in Hrun.
    destruct (grade_object tt i s) as [[[] | e] s1] eqn:Estep.
    + destruct (grade_object_rows _ _ _ _ Estep) as (Hlen & Hrows & Hset).
      destruct (IH _ _ _ Hrun) as (Hlen' & Hrows' & Hset').
      split; [congruence |]. split.
      * intros j row' Hj. destruct (Hrows' _ _ Hj) as (row1 & Hj1 & Hs1).
        destruct (Hrows _ _ Hj1) as (row & Hj0 & Hs0).
        exists row. split; [exact Hj0 | eapply same_but_result_trans; eassumption].
      * intros Hr j [<- | Hj]; [| exact (Hset' Hr j Hj)].
        destruct (Hset eq_refl) as (row1 & Hi1 & Hb1).
        assert (Hlt : (i < length (preds s'))%nat).
        { rewrite Hlen'. eapply lookup_lt_Some. exact Hi1. }
        destruct (lookup_lt_is_Some_2 _ _ Hlt) as (row' & Hi').
        exists row'. split; [exact Hi' |].
        destruct (Hrows' _ _ Hi') as (row1' & Hi1' & Hs).
        assert (row1' = row1) by congruence. subst row1'.
        exact (same_but_result_graded _ _ Hs Hb1).
    + injection Hrun as <- <-.
      destruct (grade_object_rows _ _ _ _ Estep) as (Hlen & Hrows & _).
      split; [exact Hlen |]. split; [exact Hrows | discriminate].
Qed.

(** The pass, unfolded to its loop. *)
Lemma update_prediction_table_run (s : Session) :
  update_prediction_table s
  = for_each_M grade_object (positions bet_filter (preds s) 0) tt s.
Proof.
  unfold update_prediction_table, bind, query, add_all_held, ret,
    update_bet_results, bind. cbn beta iota.
  destruct (for_each_M grade_object (positions bet_filter (preds s) 0) tt s)
    as [[[] | e] s1]; reflexivity.
Qed.

(** [update_prediction_table] changes nothing but [bet_result]: whatever its
    outcome, the table has the rows it had, in the same places, each with the
    teams, start time, scores, line and prediction it had. No row is added or
    removed; the scores it queries for are not fetched again. *)
Theorem update_prediction_table_keeps_rows (s : Session) (r : result unit)
    (s' : Session) :
  update_prediction_table s = (r, s') ->
  length (preds s') = length (preds s)
  /\ forall i row', preds s' !! i = Some row' ->
       exists row, preds s !! i = Some row /\ same_but_result row row'.
Proof.
  rewrite update_prediction_table_run. intro Hrun.
  destruct (grade_loop_rows _ _ _ _ Hrun) as (Hlen & Hrows & _).
  split; assumption.
Qed.

Lemma update_prediction_table_keeps_rows_witness :
  exists s',
    update_prediction_table (session_of [graded; finished; unscored]) = (Ok tt, s')
    /\ length (preds s') = 3%nat.
Proof.
  destruct (update_prediction_table (session_of [graded; finished; unscored]))
    as [r s'] eqn:Erun.
  assert (Hr : r = Ok tt) by (vm_compute in Erun; congruence).
  subst r. exists s'. split; [reflexivity |].
  destruct (update_prediction_table_keeps_rows _ _ _ Erun) as (Hlen & _).
  rewrite Hlen. reflexivity.
Defined.

(** Every position whose row passes the filter is queried. *)
Lemma positions_complete (p : PredRow -> bool) (rows : list PredRow) :
  forall (i j : nat) (row : PredRow),
    rows !! j = Some row -> p row = true -> In (i + j)%nat (positions p rows i).
Proof.
  induction rows as [| x rows IH]; intros i j row Hj Hp; [discriminate Hj |].
  cbn [positions]. destruct j as [| j].
  - cbn in Hj. injection Hj as ->. rewrite Hp, Nat.add_0_r. left. reflexivity.
  - cbn in Hj. replace (i + S j)%nat with (S i + j)%nat by lia.
    destruct (p x); [right |]; eapply IH; eassumption.
Qed.

Lemma positions_none (p : PredRow -> bool) (rows : list PredRow) :
  (forall j row, rows !! j = Some row -> p row = false) ->
  forall i, positions p rows i = [].
Proof.
  induction rows as [| x rows IH]; intros Hall i; [reflexivity |].
  cbn [positions]. rewrite (Hall 0%nat x eq_refl).
  apply IH. intros j row Hj. exact (Hall (S j) row Hj).
Qed.

(** After a pass that succeeded there is nothing left to grade: a second
    pass returns normally and changes nothing. Each record is graded
    once. *)
Theorem update_prediction_table_twice (s s' : Session) :
  update_prediction_table s = (Ok tt, s') ->
  update_prediction_table s' = (Ok tt, s').
Proof.
  rewrite !update_prediction_table_run. intro Hrun.
  destruct (grade_loop_rows _ _ _ _ Hrun) as (_ & Hrows & Hset).
  destruct (grade_loop_frame _ _ _ _ Hrun) as (_ & _ & Hframe & _).
  rewrite positions_none; [destruct s'; reflexivity |].
  intros j row' Hj.
  destruct (in_dec Nat.eq_dec j (positions bet_filter (preds s) 0)) as [Hin | Hout].
  - destruct (Hset eq_refl j Hin) as (row1 & Hj1 & Hb).
    assert (row1 = row') by congruence. subst row1.
    unfold bet_filter. destruct (bet_result row'); [reflexivity | contradiction].
  - rewrite (Hframe j Hout) in Hj.
    destruct (bet_filter row') eqn:Ep; [| reflexivity].
    exfalso. apply Hout. exact (positions_complete bet_filter _ 0 j row' Hj Ep).
Qed.

Lemma update_prediction_table_twice_witness :
  exists s',
    update_prediction_table (session_of [graded; finished; unscored]) = (Ok tt, s')
    /\ update_prediction_table s' = (Ok tt, s').
Proof.
  destruct (update_prediction_table (session_of [graded; finished; unscored]))
    as [r s'] eqn:Erun.
  assert (Hr : r = Ok tt) by (vm_compute in Erun; congruence).
  subst r. exists s'. split; [reflexivity |].
  exact (update_prediction_table_twice _ _ Erun).
Defined.

End SettlementPassCases.

(** ** Recovering from a conflict *)

Module Recovery.
Import Bets Fixtures Persistence SettlementPassCases.



(** Commit, rollback, close and the settlement pass keep a consistent
    session consistent. *)
Lemma consistent_kept (s : Session) (r : result unit) (s' : Session) :
  consistent s ->
  (session_commit s = (r, s') \/ session_rollback s = (r, s')
   \/ session_close s = (r, s') \/ update_prediction_table s = (r, s')) ->
  consistent s'.
Proof.
  unfold consistent. intros Hs [H | [H | [H | H]]].
  - unfold session_commit in H. destruct (unique (preds s)) eqn:Eu;
      injection H as _ <-; [exact Eu | exact Hs].
  - injection H as _ <-. exact Hs.
  - injection H as _ <-. exact Hs.
  - destruct (update_prediction_table_frame _ _ _ H) as (Hc & _). rewrite Hc.
    exact Hs.
Qed.



(** The [try] statement of the code is the guarded statement around the call
    of [insert_predictions] and the commit. *)
Lemma persist_results_guarded (data : list PredRow) :
  persist_results data
  = guarded (_ <- call insert_predictions_params 5 (insert_predictions data) ;;
             session_commit).
Proof. reflexivity. Qed.

End Recovery.

(** ** Home and away, swapped *)

Module Mirror.
Import Bets Fixtures Settlement.

Lemma compare_opp (a b a' b' : Q) :
  (a' == - a)%Q -> (b' == - b)%Q -> Qcompare a' b' = CompOpp (Qcompare a b).
Proof.
  intros Ha Hb. rewrite Ha, Hb.
  destruct (Qcompare_spec a b) as [E | L | G]; cbn [CompOpp].
  - apply Qeq_alt. rewrite E. reflexivity.
  - apply Qgt_alt. apply Qopp_lt_compat. exact L.
  - apply Qlt_alt. apply Qopp_lt_compat. exact G.
Qed.

(** Grading does not depend on which team is called the home team: with
    the scores exchanged and the signs of line and prediction reversed, a row
    gets the same [bet_result], and it fails when the original fails. *)
Theorem grade_mirrored (row : PredRow) :
  match grade row, grade (mirrored row) with
  | Ok graded, Ok graded' => bet_result graded' = bet_result graded
  | Raise e, Raise e' => e' = e
  | _, _ => False
  end.
Proof.
  unfold grade, mirrored. cbn [home_team_score away_team_score line prediction].
  destruct (home_team_score row) as [h |], (away_team_score row) as [a |];
    cbn [operand rbind]; try reflexivity.
  destruct (line row) as [l |]; cbn [operand rbind option_map]; [| reflexivity].
  set (m := inject_Z (h - a)). set (li := (l * inject_Z (-1))%Q).
  set (m' := inject_Z (a - h)). set (li' := (- l * inject_Z (-1))%Q).
  assert (Em : (m' == - m)%Q).
  { unfold m, m'. rewrite <- inject_Z_opp. f_equiv. lia. }
  assert (Eli : (li' == - li)%Q) by (unfold li, li'; ring).
  assert (Hc : Qcompare m' li' = CompOpp (Qcompare m li))
    by (apply compare_opp; assumption).
  unfold num_eq, num_lt, num_gt. rewrite Hc.
  destruct (prediction row) as [p |]; cbn [option_map operand rbind].
  - assert (Hp : Qcompare (- p) li' = CompOpp (Qcompare p li))
      by (apply compare_opp; [reflexivity | exact Eli]).
    rewrite Hp.
    destruct (Qcompare m li); cbn [CompOpp rbind]; try reflexivity;
      destruct (Qcompare p li); cbn [CompOpp rbind]; reflexivity.
  - destruct (Qcompare m li); cbn [CompOpp rbind]; reflexivity.
Qed.

End Mirror.

(** ** Inserting predictions, printing them, and team names *)

Module BetsCases.
Import Bets Fixtures.

(** The rows that the loop of [insert_new_predictions] collects. *)
Lemma collected_rows (existing : list (string * string * datetime))
    (rows : list PredRow) :
  forall acc,
    fold_left
      (fun row_objects row =>
         if already_predicted existing row then row_objects else row_objects ++ [row])
      rows acc
    = acc ++ List.filter (fun row => negb (already_predicted existing row)) rows.
Proof.
  induction rows as [| row rows IH]; intro acc; cbn [fold_left List.filter].
  - rewrite app_nil_r. reflexivity.
  - rewrite IH. destruct (already_predicted existing row); cbn [negb];
      [reflexivity |]. rewrite <- app_assoc. reflexivity.
Qed.

(** [insert_new_predictions] never adds a row. When every row it is given
    is already in the table it returns having done nothing; as soon as one row
    is new it raises [NameError], because [update_odds_id] is not defined, and
    the session is as it was. *)
Theorem insert_new_predictions_adds_nothing (rows : list PredRow) (s : Session) :
  insert_new_predictions rows s
  = (if forallb (already_predicted (map pred_identity (preds s))) rows
     then Ok tt else Raise (NameError "update_odds_id"),
     s).
Proof.
  unfold insert_new_predictions. unfold bind at 1.
  rewrite collected_rows. cbn [app].
  induction rows as [| row rows IH]; [reflexivity |].
  cbn [List.filter forallb].
  destruct (already_predicted (map pred_identity (preds s)) row); cbn [negb andb].
  - exact IH.
  - reflexivity.
Qed.

(** What [prediction_result_console_output] prints. Nothing at all for a
    prediction of exactly 0. Otherwise two lines, the second of which names
    the function that [line_probability] used whenever that one returned a
    tagged value ("cdf" or "sf"); for a prediction exactly on the negated
    line, where [line_probability] returns a bare 0.5, it says "SF". *)
Theorem console_output_cases {A : Type} (norm_cdf norm_sf : Q -> Q -> Q -> Q)
    (home_tm away_tm : string) (line prediction std : Q) (probability : A) :
  ((prediction == 0)%Q ->
     prediction_result_console_output home_tm away_tm line prediction probability = [])
  /\ (~ (prediction == 0)%Q ->
      forall p tag,
        line_probability norm_cdf norm_sf prediction line std = Tagged p tag ->
        prediction_result_console_output home_tm away_tm line prediction probability
        = [Projected (num_gt prediction 0) home_tm away_tm prediction;
           Realized (String.eqb tag "cdf") line probability])
  /\ (~ (prediction == 0)%Q ->
      forall p,
        line_probability norm_cdf norm_sf prediction line std = Bare p ->
        prediction_result_console_output home_tm away_tm line prediction probability
        = [Projected (num_gt prediction 0) home_tm away_tm prediction;
           Realized false line probability]).
Proof.
  unfold prediction_result_console_output, line_probability.
  set (lp := (inject_Z (-1) * line)%Q).
  assert (Hflip : num_lt lp prediction = num_gt prediction lp).
  { unfold num_lt, num_gt. rewrite <- (Qcompare_antisym prediction lp).
    destruct (Qcompare prediction lp); reflexivity. }
  rewrite Hflip.
  assert (Hsign : ~ (prediction == 0)%Q ->
                  (num_gt prediction 0 = true /\ num_lt prediction 0 = false)
                  \/ (num_gt prediction 0 = false /\ num_lt prediction 0 = true)).
  { intro Hne. unfold num_gt, num_lt.
    destruct (Qcompare_spec prediction 0) as [E | L | G];
      [contradiction | right | left]; split; reflexivity. }
  split; [| split].
  - intro Hz. apply num_eq_iff in Hz. unfold num_eq in Hz. unfold num_gt, num_lt.
    destruct (Qcompare prediction 0); try discriminate Hz. reflexivity.
  - intros Hne p tag. destruct (Hsign Hne) as [[-> ->] | [-> ->]]; cbn [app];
      destruct (num_gt prediction lp);
      try (intro H; injection H as _ <-; reflexivity);
      destruct (num_lt prediction lp);
      try (intro H; injection H as _ <-; reflexivity);
      destruct (num_eq prediction lp); discriminate.
  - intros Hne p. destruct (Hsign Hne) as [[-> ->] | [-> ->]]; cbn [app];
      destruct (num_gt prediction lp); try discriminate; reflexivity.
Qed.

Lemma lower_upper_ascii (c : ascii) : lower_ascii (upper_ascii c) = lower_ascii c.
Proof. destruct c as [[] [] [] [] [] [] [] []]; reflexivity. Qed.

Lemma lower_lower_ascii (c : ascii) : lower_ascii (lower_ascii c) = lower_ascii c.
Proof. destruct c as [[] [] [] [] [] [] [] []]; reflexivity. Qed.

Lemma lower_lower (s : string) : lower (lower s) = lower s.
Proof.
  induction s as [| c s IH]; [reflexivity |].
  cbn [lower]. rewrite lower_lower_ascii, IH. reflexivity.
Qed.

Lemma lower_upper (s : string) : lower (upper s) = lower s.
Proof.
  induction s as [| c s IH]; [reflexivity |].
  cbn [upper lower]. rewrite lower_upper_ascii, IH. reflexivity.
Qed.

Lemma get_team_name_upper_lemma (teams : list string) (team : string) :
  get_team_name teams (upper team) = get_team_name teams team.
Proof.
  induction teams as [| team_name teams IH]; [reflexivity |].
  cbn [get_team_name]. rewrite lower_upper, IH. reflexivity.
Qed.

(** [get_team_name] does not look at the case of its argument, for ASCII
    names: a name in upper case, as [parse_teams] returns it, and the name in
    lower case give what the name itself gives. *)
Theorem get_team_name_ignores_case (teams : list string) (team : string) :
  forallb is_ascii teams = true -> is_ascii team = true ->
  get_team_name teams (upper team) = get_team_name teams team
  /\ get_team_name teams (lower team) = get_team_name teams team.
Proof.
  intros _ _. split; [apply get_team_name_upper_lemma |].
  induction teams as [| team_name teams IH]; [reflexivity |].
  cbn [get_team_name]. rewrite lower_lower, IH. reflexivity.
Qed.

Lemma get_team_name_ignores_case_witness :
  get_team_name three_teams "BOSTON CELTICS" = Some "Boston Celtics"
  /\ get_team_name three_teams "boston celtics" = Some "Boston Celtics".
Proof.
  apply (get_team_name_ignores_case three_teams "Boston Celtics"); reflexivity.
Defined.

(** For an enumeration of ASCII names no two of which are equal up to case:
    every name is found under its upper-case form; and whatever
    [get_team_name] returns is a name of the enumeration. *)
Theorem get_team_name_finds (teams : list string) (team_name : string) :
  forallb is_ascii teams = true ->
  List.NoDup (map lower teams) -> In team_name teams ->
  get_team_name teams (upper team_name) = Some team_name
  /\ forall team found, get_team_name teams team = Some found -> In found teams.
Proof.
  intros _ Hnodup Hin. split.
  - rewrite get_team_name_upper_lemma.
    induction teams as [| t teams IH]; [destruct Hin |].
    cbn [get_team_name]. cbn [map] in Hnodup. inversion Hnodup as [| ? ? Hnot Hrest]; subst.
    destruct Hin as [-> | Hin].
    + rewrite String.eqb_refl. reflexivity.
    + destruct (String.eqb_spec (lower team_name) (lower t)) as [E | _].
      * exfalso. apply Hnot. rewrite <- E. apply in_map. exact Hin.
      * apply IH; assumption.
  - clear. induction teams as [| t teams IH]; intros team found H; [discriminate |].
    cbn [get_team_name] in H.
    destruct (String.eqb (lower team) (lower t)).
    + injection H as <-. left. reflexivity.
    + right. eapply IH. exact H.
Qed.

Lemma get_team_name_finds_witness :
  get_team_name three_teams "BOSTON CELTICS" = Some "Boston Celtics".
Proof.
  apply (get_team_name_finds three_teams "Boston Celtics").
  - reflexivity.
  - repeat constructor; cbn; intuition discriminate.
  - right. left. reflexivity.
Defined.

End BetsCases.

(** ** Properties of [general.py] *)

Module GeneralCases.
Import General Fixtures.

Lemma length_zero (x : string) : (0 <? String.length x)%nat = negb (String.eqb x "").
Proof. destruct x; reflexivity. Qed.

Lemma set_type_loop (new_type : string -> result value) (values : list string) :
  forall acc out,
    for_each
      (fun new_vals i =>
         if (0 <? String.length i)%nat
         then rbind (new_type i) (fun v => Ok (new_vals ++ [v]))
         else Ok (new_vals ++ [VNone]))
      values acc = Ok out ->
    exists out', out = acc ++ out' /\ Forall2 (converted new_type) values out'.
Proof.
  induction values as [| x values IH]; intros acc out Hrun.
  - cbn in Hrun. injection Hrun as <-. exists []. rewrite app_nil_r.
    split; [reflexivity | constructor].
  - cbn [for_each] in Hrun. rewrite length_zero in Hrun.
    destruct (String.eqb x "") eqn:Ex; cbn [negb rbind] in Hrun.
    + destruct (IH _ _ Hrun) as (out' & -> & Hall).
      exists (VNone :: out'). rewrite <- app_assoc. split; [reflexivity |].
      constructor; [| exact Hall]. unfold converted. rewrite Ex. reflexivity.
    + destruct (new_type x) as [v | e] eqn:Ev; cbn [rbind] in Hrun; [| discriminate].
      destruct (IH _ _ Hrun) as (out' & -> & Hall).
      exists (v :: out'). rewrite <- app_assoc. split; [reflexivity |].
      constructor; [| exact Hall]. unfold converted. rewrite Ex. exact Ev.
Qed.

Lemma _set_type_converts_lemma (values : list string)
    (new_type : string -> result value) (out : list value) :
  _set_type values new_type = Ok out ->
  length out = length values /\ Forall2 (converted new_type) values out.
Proof.
  unfold _set_type. intro Hrun.
  destruct (set_type_loop _ _ _ _ Hrun) as (out' & -> & Hall).
  split; [symmetry; exact (Forall2_length _ _ _ Hall) | exact Hall].
Qed.

(** When [_set_type] returns, its result has one entry per value, in order:
    [None] for an empty string and the converted value for any other. An
    empty string is never handed to the conversion. *)
Theorem _set_type_converts (values : list string)
    (new_type : string -> result value) (out : list value) :
  _set_type values new_type = Ok out ->
  length out = length values /\ Forall2 (converted new_type) values out.
Proof.
  unfold _set_type. intro Hrun.
  destruct (set_type_loop _ _ _ _ Hrun) as (out' & -> & Hall).
  split; [symmetry; exact (Forall2_length _ _ _ Hall) | exact Hall].
Qed.

Lemma _set_type_converts_witness :
  _set_type ["12"; ""; "-3"] (as_int py_int) = Ok [VInt 12; VNone; VInt (-3)]
  /\ length [VInt 12; VNone; VInt (-3)] = 3%nat.
Proof.
  split; [reflexivity |].
  exact (proj1 (_set_type_converts ["12"; ""; "-3"] (as_int py_int)
                  [VInt 12; VNone; VInt (-3)] eq_refl)).
Defined.

(** [set_type] decides by the first value alone. When that value is the
    empty string, which is neither an [int] nor a [float], nothing is
    converted: the column comes back as text with [None] for its empty
    strings, also when every other value is a number. *)
Theorem set_type_first_empty (int_of : string -> result Z)
    (float_of : string -> result Q) (rest : list string) :
  int_of "" = Raise ValueError -> float_of "" = Raise ValueError ->
  set_type int_of float_of ("" :: rest) = Ok (VNone :: map blank_or_text rest).
Proof.
  intros Hi Hf. unfold set_type, is_int, is_float. rewrite Hi, Hf. cbn [rbind map].
  f_equal. f_equal. apply map_ext. intro x. rewrite length_zero.
  unfold blank_or_text. destruct (String.eqb x ""); reflexivity.
Qed.

Lemma set_type_first_empty_witness :
  set_type py_int py_float [""; "12"; "7.5"] = Ok [VNone; VStr "12"; VStr "7.5"].
Proof.
  apply (set_type_first_empty py_int py_float ["12"; "7.5"]); reflexivity.
Defined.

(** When the first value reads as an [int], every other non-empty value
    must too: one that does not makes [set_type] raise, whatever the rest
    holds. *)
Theorem set_type_first_int (int_of : string -> result Z)
    (float_of : string -> result Q) (first x : string) (rest : list string)
    (z : Z) (e : exn) :
  int_of first = Ok z -> In x rest -> x <> "" -> int_of x = Raise e ->
  exists e', set_type int_of float_of (first :: rest) = Raise e'.
Proof.
  intros Hfirst Hin Hx He. unfold set_type, is_int. rewrite Hfirst. cbn [rbind].
  destruct (_set_type (first :: rest) (as_int int_of)) as [out | e'] eqn:Erun;
    [| exists e'; reflexivity].
  exfalso. destruct (_set_type_converts_lemma _ _ _ Erun) as (_ & Hall).
  inversion Hall as [| ? v ? out' _ Hrest]; subst.
  clear Hall Erun. induction Hrest as [| y v' rest out'' Hy _ IH]; [destruct Hin |].
  destruct Hin as [-> | Hin]; [| exact (IH Hin)].
  unfold converted, as_int in Hy.
  destruct (String.eqb_spec x "") as [E | _]; [contradiction |].
  rewrite He in Hy. discriminate Hy.
Qed.

Lemma set_type_first_int_witness :
  exists e, set_type py_int py_float ["1"; ""; "2.5"] = Raise e.
Proof.
  apply (set_type_first_int py_int py_float "1" "2.5" [""; "2.5"] 1 ValueError).
  - reflexivity.
  - right. left. reflexivity.
  - discriminate.
  - reflexivity.
Defined.

Lemma max_from_spec (key : string -> nat) (rest : list string) :
  forall best,
    let r := max_from key best rest in
    (r = best \/ In r rest)
    /\ (key best <= key r)%nat
    /\ forall x, In x rest -> (key x <= key r)%nat.
Proof.
  induction rest as [| x rest IH]; intro best; cbn [max_from].
  - split; [left; reflexivity |]. split; [lia | intros x []].
  - destruct (Nat.ltb_spec (key best) (key x)) as [Hlt | Hge].
    + destruct (IH x) as (Hin & Hbest & Hall). cbv zeta in *.
      split; [destruct Hin as [-> | Hin]; right; [left; reflexivity | right; exact Hin] |].
      split; [lia |]. intros y [<- | Hy]; [exact Hbest | exact (Hall y Hy)].
    + destruct (IH best) as (Hin & Hbest & Hall). cbv zeta in *.
      split; [destruct Hin as [-> | Hin]; [left; reflexivity | right; right; exact Hin] |].
      split; [exact Hbest |]. intros y [<- | Hy]; [lia | exact (Hall y Hy)].
Qed.

Lemma count_absent (t : string) (l : list string) : ~ In t l -> count t l = 0%nat.
Proof.
  unfold count. induction l as [| x l IH]; intro Hout; [reflexivity |].
  cbn [List.filter]. destruct (String.eqb_spec t x) as [-> | _].
  - exfalso. apply Hout. left. reflexivity.
  - apply IH. intro H. apply Hout. right. exact H.
Qed.

(** [get_type] returns a type name that occurs among the values at least
    as often as every other, in whatever order the set of names is iterated;
    for an empty list it raises [ValueError]. *)
Theorem get_type_modal (order : list string) (values : list value) :
  (forall t, In t order <-> In t (map type_name values)) ->
  (values = [] -> get_type order values = Raise ValueError)
  /\ (values <> [] ->
      exists r, get_type order values = Ok r
                /\ In r (map type_name values)
                /\ forall t, (count t (map type_name values)
                              <= count r (map type_name values))%nat).
Proof.
  intro Hset. split.
  - intros ->. destruct order as [| t order]; [reflexivity |].
    exfalso. exact (proj1 (Hset t) (or_introl eq_refl)).
  - intro Hne. unfold get_type. destruct order as [| first rest].
    + exfalso. destruct values as [| v values]; [contradiction |].
      exact (proj2 (Hset (type_name v)) (or_introl eq_refl)).
    + eexists. split; [reflexivity |].
      destruct (max_from_spec (fun t => count t (map type_name values)) rest first)
        as (Hin & Hbest & Hall). cbv zeta in *.
      assert (Hr : In (max_from (fun t => count t (map type_name values)) first rest)
                      (first :: rest))
        by (destruct Hin as [-> | Hin]; [left; reflexivity | right; exact Hin]).
      split; [apply Hset; exact Hr |].
      intro t. destruct (in_dec string_dec t (map type_name values)) as [Ht | Ht].
      * apply Hset in Ht. destruct Ht as [<- | Ht]; [exact Hbest | exact (Hall t Ht)].
      * rewrite (count_absent _ _ Ht). lia.
Qed.

Lemma get_type_modal_witness :
  get_type ["string"; "integer"] [VInt 1; VStr "a"; VInt 2] = Ok "integer"
  /\ get_type ["integer"; "string"] [VInt 1; VStr "a"; VInt 2] = Ok "integer".
Proof.
  destruct (get_type_modal ["string"; "integer"] [VInt 1; VStr "a"; VInt 2])
    as (_ & H).
  - intro t. cbn. tauto.
  - destruct (H ltac:(discriminate)) as (r & Hr & _). split; reflexivity.
Defined.

End GeneralCases.

(** ** Properties of the run scripts *)

Module RunCases.
Import Bets Run Fixtures.

(** [run_all] never returns normally and never closes the session. When
    the scrape succeeds and its rows can be committed, they are committed, and
    then the call of [predict_all] raises [TypeError] (two arguments for one
    parameter): no prediction is made, the second commit and [session.close]
    are not reached. *)
Theorem run_all_stops_after_scrape (scrape_all predict_all : DB unit)
    (s s1 : Session) :
  scrape_all s = (Ok tt, s1) -> unique (preds s1) = true ->
  run_all scrape_all predict_all s
  = (Raise TypeError, mk_session (preds s1) (preds s1) (log s1 ++ [Committed])).
Proof.
  intros Hscrape Huniq. unfold run_all. unfold bind at 1. rewrite Hscrape.
  unfold bind at 1, session_commit at 1. rewrite Huniq. reflexivity.
Qed.

Lemma run_all_stops_after_scrape_witness :
  run_all (session_add_all [finished]) update_prediction_table (session_of [])
  = (Raise TypeError, mk_session [finished] [finished] [Committed]).
Proof.
  apply (run_all_stops_after_scrape (session_add_all [finished])
           update_prediction_table (session_of []) (mk_session [finished] [] []));
    reflexivity.
Defined.

Lemma days_from_succ (first : Z) (n : nat) :
  days_from first (S n) = first :: days_from (first + 1) n.
Proof.
  unfold days_from. cbn [seq map]. rewrite Z.add_0_r. f_equal.
  rewrite <- seq_shift, map_map. apply map_ext. intro k. lia.
Qed.

Lemma game_dates_loop_spec (n : nat) :
  forall (date end_date : Z) (acc : list Z),
    Z.to_nat (end_date - date + 1) = n ->
    game_dates_loop date end_date acc = acc ++ days_from (date + 1) n.
Proof.
  induction n as [| n IH]; intros date end_date acc Hn;
    rewrite game_dates_loop_equation_1;
    destruct (Z_le_dec date end_date) as [Hle | Hgt];
    unfold game_dates_loop_unfold_clause_1; try lia.
  - unfold days_from. cbn. rewrite app_nil_r. reflexivity.
  - rewrite (IH (date + 1) end_date) by lia.
    rewrite days_from_succ, <- app_assoc. reflexivity.
Qed.

(** The dates that [daily.py] collects: every day from the start date to
    the day after the end date, in order, when the start date is not past the
    end date (one day more than the season has), and the start date alone
    when it is. *)
Theorem game_dates_range (start_date end_date : Z) :
  (start_date <= end_date ->
     game_dates start_date end_date
     = days_from start_date (Z.to_nat (end_date - start_date + 2))
     /\ List.last (game_dates start_date end_date) start_date = end_date + 1)
  /\ (end_date < start_date -> game_dates start_date end_date = [start_date]).
Proof.
  unfold game_dates.
  rewrite (game_dates_loop_spec (Z.to_nat (end_date - start_date + 1))
             start_date end_date [start_date] eq_refl).
  split.
  - intro Hle. cbn [app].
    replace (Z.to_nat (end_date - start_date + 2))
      with (S (Z.to_nat (end_date - start_date + 1))) by lia.
    rewrite <- days_from_succ. split; [reflexivity |].
    unfold days_from. rewrite seq_S, map_app. cbn [map].
    rewrite last_last. lia.
  - intro Hgt. replace (Z.to_nat (end_date - start_date + 1)) with 0%nat by lia.
    reflexivity.
Qed.

Lemma game_dates_range_witness :
  game_dates 10 12 = [10; 11; 12; 13].
Proof.
  rewrite (proj1 (proj1 (game_dates_range 10 12) ltac:(lia))). reflexivity.
Defined.

End RunCases.

(** ** A well-formed game *)

Module WellFormedGame.
Import LineScraper Fixtures GameLoop.

(** A dictionary of at most nine columns takes any row of nine values. *)
Lemma append_row_total (game_lines : list value) (lines : Lines) :
  forall i, (i + length lines <= length game_lines)%nat ->
            exists lines', append_row lines game_lines i = Ok lines'.
Proof.
  induction lines as [| [key column] rest IH]; intros i Hlen.
  - exists []. reflexivity.
  - cbn [append_row]. cbn [length] in Hlen.
    destruct (nth_error game_lines i) as [v |] eqn:Ev.
    + destruct (IH (S i)) as (rest' & ->); [lia |]. eexists. reflexivity.
    + apply nth_error_None in Ev. lia.
Qed.

(** The loop over the bets of a game, when every moneyline and every point
    spread among them parses: it succeeds; the moneyline locals hold what the
    last moneyline gave, and the flag is set, or they and the flag are as
    before when there is none; the spread locals hold what the last point
    spread gave, or are as before. *)
Lemma bets_loop (bets : list Market) :
  forall (l : Locals) (flag : bool),
    Forall parses bets ->
    exists l' flag',
      for_each bet_step bets (l, flag) = Ok (l', flag')
      /\ match last_of "Moneyline" bets with
         | Some ml =>
             exists h a,
               parse_moneyline ml = Ok (h, a)
               /\ home_moneyline l' = Some (blank_to_None h)
               /\ away_moneyline l' = Some (blank_to_None a)
               /\ flag' = true
         | None =>
             home_moneyline l' = home_moneyline l
             /\ away_moneyline l' = away_moneyline l
             /\ flag' = flag
         end
      /\ match last_of "Point Spread" bets with
         | Some sp =>
             exists s h a,
               parse_spread sp = Ok (s, h, a)
               /\ spread l' = Some (blank_to_None s)
               /\ home_spread_price l' = Some (blank_to_None h)
               /\ away_spread_price l' = Some (blank_to_None a)
         | None =>
             spread l' = spread l
             /\ home_spread_price l' = home_spread_price l
             /\ away_spread_price l' = away_spread_price l
         end.
Proof.
  induction bets as [| bet bets IH]; intros l flag Hall.
  - exists l, flag. cbn. repeat split.
  - inversion Hall as [| ? ? [Hml Hsp] Hrest]; subst.
    cbn [for_each last_of]. unfold bet_step at 1.
    destruct (String.eqb_spec (m_description bet) "Moneyline") as [Em | Em].
    + destruct (Hml Em) as ([h0 a0] & Hp). rewrite Hp. cbn [rbind].
      destruct (IH (mk_locals (Some (blank_to_None h0)) (Some (blank_to_None a0))
                      (spread l) (home_spread_price l) (away_spread_price l))
                  true Hrest)
        as (l' & flag' & Hrun & Hm & Hs).
      exists l', flag'. split; [exact Hrun |]. split.
      * destruct (last_of "Moneyline" bets); [exact Hm |].
        exists h0, a0. cbn in Hm. tauto.
      * destruct (last_of "Point Spread" bets); [exact Hs |].
        rewrite Em. cbn. cbn in Hs. exact Hs.
    + destruct (String.eqb_spec (m_description bet) "Point Spread") as [Es | Es].
      * destruct (Hsp Es) as ([[s0 h0] a0] & Hp). rewrite Hp. cbn [rbind].
        destruct (IH (mk_locals (home_moneyline l) (away_moneyline l)
                        (Some (blank_to_None s0)) (Some (blank_to_None h0))
                        (Some (blank_to_None a0)))
                    flag Hrest)
          as (l' & flag' & Hrun & Hm & Hs).
        exists l', flag'. split; [exact Hrun |]. split.
        -- destruct (last_of "Moneyline" bets); [exact Hm |].
           cbn in Hm. exact Hm.
        -- destruct (last_of "Point Spread" bets); [exact Hs |].
           exists s0, h0, a0. cbn in Hs. tauto.
      * destruct (IH l flag Hrest) as (l' & flag' & Hrun & Hm & Hs).
        exists l', flag'. split; [exact Hrun |]. split.
        -- destruct (last_of "Moneyline" bets); exact Hm.
        -- destruct (last_of "Point Spread" bets); exact Hs.
Qed.

(** A game that has not started, whose competitors [parse_teams] reads as
    [home] and [away], and among whose full-match markets (in any order, with
    any other markets between them) every moneyline and every point spread
    parses, [sp] being the last point spread and [ml] the last moneyline: its
    turn of the loop succeeds, reads the clock once, and appends the row of
    the two names, the start time, what [parse_spread] gave for [sp], what
    [parse_moneyline] gave for [ml], each blank turned into [None], and the
    scrape time. What an earlier game left in the locals does not show. *)
Theorem game_step_well_formed (w : World) (scrape_time start_time : datetime)
    (l : Locals) (lines : Lines) (game : Event) (t : Trace)
    (home away : string) (sp ml : Market) (sv hv av mh ma : value) :
  start_time_of game = Ok start_time ->
  datetime_gt (clock w (clock_reads t)) start_time = false ->
  parse_teams (e_competitors game) = Ok (home, away) ->
  Forall parses (match_bets game) ->
  last_of "Point Spread" (match_bets game) = Some sp ->
  last_of "Moneyline" (match_bets game) = Some ml ->
  parse_spread sp = Ok (sv, hv, av) ->
  parse_moneyline ml = Ok (mh, ma) ->
  (length lines <= 9)%nat ->
  exists l' lines',
    game_step w scrape_time (l, lines) game t
    = (Ok (l', lines'), mk_trace (requested t) (S (clock_reads t)))
    /\ append_row lines
         [VStr home; VStr away; VDatetime start_time; blank_to_None sv;
          blank_to_None hv; blank_to_None av; blank_to_None mh; blank_to_None ma;
          VDatetime scrape_time] 0
       = Ok lines'.
Proof.
  intros Hstart Hfuture Hteams Hall Hlast_sp Hlast_ml Hsp Hml Hlen.
  rewrite game_step_run, Hstart, Hfuture.
  unfold row_of_game. rewrite Hteams. cbn [rbind].
  unfold match_bets in Hall, Hlast_sp, Hlast_ml.
  destruct (e_displayGroups game) as [| markets groups];
    [discriminate Hlast_sp |].
  cbn [rbind].
  destruct (bets_loop _ l false Hall) as (l1 & flag & Hrun & Hm & Hs).
  rewrite Hrun. cbn [rbind fst snd].
  rewrite Hlast_ml in Hm. rewrite Hlast_sp in Hs.
  destruct Hm as (h & a & Hml' & Hh & Ha & ->).
  destruct Hs as (s & hp & ap & Hsp' & Hs & Hhp & Hap).
  rewrite Hml in Hml'. injection Hml' as <- <-.
  rewrite Hsp in Hsp'. injection Hsp' as <- <- <-.
  rewrite Hh, Ha, Hs, Hhp, Hap. cbn [read rbind].
  destruct (append_row_total
              [VStr home; VStr away; VDatetime start_time; blank_to_None sv;
               blank_to_None hv; blank_to_None av; blank_to_None mh;
               blank_to_None ma; VDatetime scrape_time] lines 0)
    as (lines' & Happ); [cbn; lia |].
  rewrite Happ. cbn [rbind]. exists l1, lines'. split; reflexivity.
Qed.

(** The Lakers game with the away side listed first and the markets out of
    order: a total, the moneyline, a first-half spread, then the point
    spread. Scraped at noon, after a game that left other values in the
    locals. *)
Lemma game_step_well_formed_witness :
  exists l' lines',
    game_step (world [] []) noon
      (mk_locals (Some (VInt 120)) (Some (VInt (-140))) (Some (VFloat (3 # 1)))
         (Some (VInt (-105))) (Some (VInt (-115))),
       empty_lines)
      lakers_reordered start
    = (Ok (l', lines'), mk_trace [] 1)
    /\ append_row empty_lines
         [VStr "LAKERS"; VStr "CELTICS"; VDatetime tip_off; VFloat (-9 # 2);
          VInt (-110); VInt (-110); VInt (-200); VInt 180; VDatetime noon] 0
       = Ok lines'.
Proof.
  apply (game_step_well_formed (world [] []) noon tip_off _ empty_lines
           lakers_reordered start "LAKERS" "CELTICS" point_spread
           (moneyline "-200" "+180")
           (VFloat (-9 # 2)) (VInt (-110)) (VInt (-110)) (VInt (-200)) (VInt 180)).
  - reflexivity.
  - reflexivity.
  - reflexivity.
  - repeat constructor; intro H; try discriminate H; eexists; reflexivity.
  - reflexivity.
  - reflexivity.
  - reflexivity.
  - reflexivity.
  - cbn. lia.
Defined.

End WellFormedGame.
